(** * rzepa: the movie store, its creation flow and the top-movies ranking

    A shallow embedding of [movies/views.py] (the views [MovieViewSet] and
    [TopMoviesView]) and of [comments/models.py] (the [Comment] row), with
    the properties of the repository's specification stated over it. *)

From Stdlib Require Import ZArith Ascii String List Bool Lia.
From stdpp Require Import base numbers option list sorting gmap strings.

Local Open Scope string_scope.
Local Open Scope list_scope.
Local Open Scope Z_scope.

(** ** Rows of the three relations *)

Module Models.

(** Modelled from the spec: the row of [movies.Movie] ([movies/models.py]
    is not among the sources): the primary key, the unique title and the
    descriptive columns the serializer stored with it. *)
Record Movie := mkMovie {
  id : Z;
  title : string;
  fields : gmap string string
}.

(** Modelled from the spec: the row of [movies.Rating] (same module):
    many-to-one on a movie, a source label and a value. *)
Record Rating := mkRating {
  rating_movie_id : Z;
  rating_source : string;
  rating_value : string
}.

(** [comments.models.Comment]: timestamps are instants on the time line. *)
Record Comment := mkComment {
  created_at : Z;
  movie : Z;
  author : string;
  text : string
}.

(** The persistent store: the three tables and the movies' key sequence. *)
Record Store := mkStore {
  movies : list Movie;
  ratings : list Rating;
  comments : list Comment;
  movie_seq : Z
}.

Definition empty_store : Store := mkStore [] [] [] 1.

End Models.
Export Models.

(** ** Requests, responses, exceptions *)

Module Http.

(** [Response(data, status=...)]. *)
Record Response (A : Type) := mkResponse {
  data : A;
  status_code : Z
}.
Arguments mkResponse {A} _ _.
Arguments data {A} _.
Arguments status_code {A} _.

(** The exceptions the views meet, and [IntegrityError], which
    [movies/views.py] imports beside them.  [DataError] and
    [IntegrityError] carry [str(e)]. *)
Inductive exn :=
| KeyError (key : string)
| DoesNotExist
| MultipleObjectsReturned
| DataError (text : string)
| UnboundLocalError (name : string)
| IntegrityError (text : string).

Inductive outcome (A : Type) :=
| Returns (a : A)
| Raises (e : exn).
Arguments Returns {A} _.
Arguments Raises {A} _.

(** What a request can touch: the store, and the metadata provider, of
    which the titles it was asked for are recorded. *)
Record World := mkWorld {
  db : Store;
  fetched : list string
}.

(** A view method: it reads and writes the world and returns or raises. *)
Definition M (A : Type) : Type := World -> outcome A * World.

Definition ret {A} (a : A) : M A := fun w => (Returns a, w).

Definition raise {A} (e : exn) : M A := fun w => (Raises e, w).

Definition bind {A B} (m : M A) (k : A -> M B) : M B :=
  fun w => match m w with
           | (Returns a, w') => k a w'
           | (Raises e, w') => (Raises e, w')
           end.

(** [try: m] with the outcome handed to the [except]/[else] clauses. *)
Definition attempt {A} (m : M A) : M (outcome A) :=
  fun w => let '(o, w') := m w in (Returns o, w').

Definition get_db : M Store := fun w => (Returns (db w), w).

Definition put_db (s : Store) : M unit :=
  fun w => (Returns tt, mkWorld s (fetched w)).

End Http.
Export Http.

Declare Scope view_scope.
Delimit Scope view_scope with view.
Notation "x <- m ;; k" := (bind m (fun x => k))
  (at level 100, m at next level, right associativity) : view_scope.
Notation "m ;;; k" := (bind m (fun _ => k))
  (at level 100, right associativity) : view_scope.

(** ** [TopMoviesView] *)

Module TopMoviesView.

(** A [Q] object on the comments relation, as the view builds them. *)
Inductive Q :=
| comments__created_at__gte (bound : Z)
| comments__created_at__lte (bound : Z).

Definition Q_holds (q : Q) (c : Comment) : bool :=
  match q with
  | comments__created_at__gte b => b <=? created_at c
  | comments__created_at__lte b => created_at c <=? b
  end.

(** One row of [.values("id", "total_comments")]. *)
Record Row := mkRow {
  row_id : Z;
  row_total_comments : Z
}.

(** One element of the response list, after the key [id] was renamed. *)
Record Entry := mkEntry {
  movie_id : Z;
  rank : Z;
  total_comments : Z
}.

(** The comments the relation [comments] joins to a movie. *)
Definition related_comments (s : Store) (m : Movie) : list Comment :=
  List.filter (fun c => movie c =? id m) (comments s).

(** The comments of the join that pass every condition of one [filter()]
    call (conditions of one call bear on the same joined row). *)
Definition joined_comments (filters : list Q) (s : Store) (m : Movie)
    : list Comment :=
  List.filter (fun c => forallb (fun q => Q_holds q c) filters)
              (related_comments s m).

(** The query set [filter] (with the collected conditions), [annotate]
    (with [total_comments = Count("comments")]) and [values] build.  Without a condition on the relation
    the annotation joins it LEFT OUTER, and a movie without comments counts
    0; a condition on [comments__...] joins it INNER, the annotation counts
    the rows of that join, and a movie without a joined row has no group. *)
Definition annotate_total_comments (filters : list Q) (s : Store)
    : list Row :=
  match filters with
  | [] =>
      List.map (fun m => mkRow (id m) (Z.of_nat (length (related_comments s m))))
               (movies s)
  | _ :: _ =>
      List.flat_map
        (fun m => match joined_comments filters s m with
                  | [] => []
                  | c :: cs => [mkRow (id m) (Z.of_nat (length (c :: cs)))]
                  end)
        (movies s)
  end.

(** [.order_by("-total_comments")]: the order of rows with equal counts
    is the database's; here it is the one of a merge sort. *)
Definition by_total_comments_desc (a b : Row) : Prop :=
  row_total_comments b <= row_total_comments a.

#[export] Instance by_total_comments_desc_dec (a b : Row)
  : Decision (by_total_comments_desc a b) :=
  Z_le_dec (row_total_comments b) (row_total_comments a).

Definition order_by_total_comments_desc (rows : list Row) : list Row :=
  merge_sort by_total_comments_desc rows.

(** The loop over the query set: [last_count], [last_rank] and [response]
    are the three variables it updates. *)
Fixpoint rank_loop (qs : list Row) (last_count last_rank : Z)
    (response : list Entry) : list Entry :=
  match qs with
  | [] => response
  | element :: rest =>
      let last_rank :=
        if (last_rank =? 0) || (row_total_comments element <? last_count)
        then last_rank + 1 else last_rank in
      let last_count := row_total_comments element in
      rank_loop rest last_count last_rank
        (response ++ [mkEntry (row_id element) last_rank
                              (row_total_comments element)])
  end.

Definition assign_ranks (qs : list Row) : list Entry := rank_loop qs 0 0 [].

(** The conditions the view collects.  A query parameter is [None] when it
    is missing or empty (the source tests its truth value), and the parsed
    instant otherwise. *)
Definition collect_filters (date_from date_to : option Z) : list Q :=
  let filters := [] in
  let filters := match date_from with
                 | Some d => filters ++ [comments__created_at__gte d]
                 | None => filters
                 end in
  let filters := match date_to with
                 | Some d => filters ++ [comments__created_at__lte d]
                 | None => filters
                 end in
  filters.

(** [TopMoviesView.get]; [query_params] maps ["from"] and ["to"]. *)
Definition get (query_params : gmap string Z) : M (Response (list Entry)) :=
  let date_from := query_params !! "from" in
  let date_to := query_params !! "to" in
  (s <- get_db ;;
   let filters := collect_filters date_from date_to in
   let qs := order_by_total_comments_desc (annotate_total_comments filters s) in
   ret (mkResponse (assign_ranks qs) 200))%view.

End TopMoviesView.

(** ** Strings as the views use them *)

Module Str.

(** [str.isspace] on the ASCII range. *)
Definition isspace (c : ascii) : bool :=
  let n := nat_of_ascii c in
  ((9 <=? n) && (n <=? 13) || (28 <=? n) && (n <=? 32))%nat.

Fixpoint lstrip (s : string) : string :=
  match s with
  | EmptyString => EmptyString
  | String c s' => if isspace c then lstrip s' else s
  end.

Fixpoint rstrip (s : string) : string :=
  match s with
  | EmptyString => EmptyString
  | String c s' =>
      match rstrip s' with
      | EmptyString => if isspace c then EmptyString else String c EmptyString
      | r => String c r
      end
  end.

(** [s.strip()]. *)
Definition strip (s : string) : string := rstrip (lstrip s).

(** Case folding of the letters A to Z. *)
Definition fold_case (c : ascii) : ascii :=
  let n := nat_of_ascii c in
  if ((65 <=? n) && (n <=? 90))%nat then ascii_of_nat (n + 32) else c.

Fixpoint casefold (s : string) : string :=
  match s with
  | EmptyString => EmptyString
  | String c s' => String (fold_case c) (casefold s')
  end.

Fixpoint startswith (p s : string) : bool :=
  match p, s with
  | EmptyString, _ => true
  | String a p', String b s' => (Ascii.eqb a b) && startswith p' s'
  | String _ _, EmptyString => false
  end.

Fixpoint contains (needle hay : string) : bool :=
  startswith needle hay ||
  match hay with
  | EmptyString => false
  | String _ hay' => contains needle hay'
  end.

(** The lookup [title__icontains]: a substring match that ignores case. *)
Definition icontains (needle hay : string) : bool :=
  contains (casefold needle) (casefold hay).

End Str.

(** ** [MovieViewSet] *)

Module MovieViewSet.

(** A JSON scalar of a rating: the provider's strings, and the integer key
    the view adds. *)
Inductive value :=
| VStr (s : string)
| VInt (z : Z).

(** The dict the provider returns and the view answers with: its string
    entries, and the entry ["Ratings"], a list of dicts, when it has one. *)
Record dict := mkDict {
  items : gmap string string;
  Ratings : option (list (gmap string value))
}.

(** [data.pop("Ratings", [])]. *)
Definition pop_Ratings (d : dict) : list (gmap string value) * dict :=
  (default [] (Ratings d), mkDict (items d) None).

(** [data["Ratings"] = ratings]. *)
Definition set_Ratings (d : dict) (ratings : list (gmap string value)) : dict :=
  mkDict (items d) (Some ratings).

(** [{"string": text}]. *)
Definition error_body (text : string) : dict :=
  mkDict {[ "string" := text ]} None.

(** What the view calls in [movies.api_clients], [movies.serializers] and
    [movies.models], modules that are not among the sources, taken as
    parameters: the provider's answer to a title, the validation of the two
    serializers (which may consult the store), and the text of the
    [DataError] the database raises on a row it refuses, if it does. *)
Class Collaborators := {
  OMDbAPIClient_fetch : string -> dict;
  MovieSerializer_is_valid : Store -> dict -> bool;
  Movie_DataError : dict -> option string;
  RatingSerializer_is_valid : Store -> gmap string value -> bool;
  Rating_DataError : gmap string value -> option string
}.

Section Views.

Context `{Collaborators}.

(** [OMDbAPIClient().fetch(title)].  The provider is taken to answer with
    its record: a failure of the call itself, which the view does not
    handle, is outside this model, and every property of [create] is about
    the requests the provider answers. *)
Definition fetch (title : string) : M dict :=
  fun w => (Returns (OMDbAPIClient_fetch title),
            mkWorld (db w) (fetched w ++ [title])).

(** [serializer.is_valid()] of either serializer. *)
Definition is_valid {A} (check : Store -> A -> bool) (a : A) : M bool :=
  (s <- get_db ;; ret (check s a))%view.

(** [data[key]]. *)
Definition getitem (d : gmap string string) (key : string) : M string :=
  match d !! key with
  | Some v => ret v
  | None => raise (KeyError key)
  end.

(** [Movie.objects.get(title=...)]. *)
Definition Movie_objects_get (t : string) : M Movie :=
  (s <- get_db ;;
   match List.filter (fun m => String.eqb (title m) t) (movies s) with
   | [] => raise DoesNotExist
   | [m] => ret m
   | _ :: _ :: _ => raise MultipleObjectsReturned
   end)%view.

(** Modelled from the spec: [MovieSerializer.save] ([movies/serializers.py]
    and [movies/models.py]).  It inserts one movie row that bears the
    record's ["Title"] and its other fields under the next key, or raises
    the database's [DataError] and writes nothing. *)
Definition Movie_save (d : dict) : M Movie :=
  (s <- get_db ;;
   match Movie_DataError d with
   | Some text => raise (DataError text)
   | None =>
       let m := mkMovie (movie_seq s) (default EmptyString (items d !! "Title"))
                        (items d) in
       put_db (mkStore (movies s ++ [m]) (ratings s) (comments s)
                       (movie_seq s + 1)) ;;;
       ret m
   end)%view.

Definition as_string (v : option value) : string :=
  match v with Some (VStr s) => s | _ => EmptyString end.

Definition as_int (v : option value) : Z :=
  match v with Some (VInt z) => z | _ => 0 end.

(** The rating row a rating dict describes. *)
Definition Rating_of (rating : gmap string value) : Rating :=
  mkRating (as_int (rating !! "movie_id")) (as_string (rating !! "Source"))
           (as_string (rating !! "Value")).

(** Modelled from the spec: [RatingSerializer.save]
    ([movies/serializers.py]).  It inserts the rating row of the dict, or
    raises the database's [DataError] and writes nothing. *)
Definition Rating_save (rating : gmap string value) : M Rating :=
  (s <- get_db ;;
   match Rating_DataError rating with
   | Some text => raise (DataError text)
   | None =>
       let r := Rating_of rating in
       put_db (mkStore (movies s) (ratings s ++ [r]) (comments s)
                       (movie_seq s)) ;;;
       ret r
   end)%view.

(** The body of the loop over [ratings].  The assignment
    [rating["movie_id"] = movie.id] changes the dict in place, so the list
    [ratings] holds the changed dict afterwards: the body returns it. *)
Definition attach_rating (m : Movie) (rating : gmap string value)
    : M (gmap string value) :=
  (let rating := <[ "movie_id" := VInt (id m) ]> rating in
   valid <- is_valid RatingSerializer_is_valid rating ;;
   (if valid then
      saved <- attempt (Rating_save rating) ;;
      match saved with
      | Returns _ => ret tt
      | Raises (DataError _) => ret tt
      | Raises e => raise e
      end
    else ret tt) ;;;
   ret rating)%view.

(** [for rating in ratings: ...]; the result is the list after the loop. *)
Fixpoint attach_ratings (m : Movie) (ratings : list (gmap string value))
    : M (list (gmap string value)) :=
  match ratings with
  | [] => ret []
  | rating :: rest =>
      (rating' <- attach_rating m rating ;;
       rest' <- attach_ratings m rest ;;
       ret (rating' :: rest'))%view
  end.

(** [MovieViewSet.create]; [request_data] is [request.data].  In the last
    branch the source evaluates [str(e)]: [e] is a local name that only the
    clause [except DataError as e] binds, and that clause was not entered
    when the serializer refuses the record. *)
Definition create (request_data : gmap string string) : M (Response dict) :=
  match request_data !! "title" with
  | None => ret (mkResponse (error_body "Title is a required parameter") 400)
  | Some title =>
      (data <- fetch title ;;
       let '(ratings, data) := pop_Ratings data in
       valid <- is_valid MovieSerializer_is_valid data ;;
       if valid then
         canonical <- getitem (items data) "Title" ;;
         found <- attempt (Movie_objects_get canonical) ;;
         match found with
         | Raises DoesNotExist =>
             saved <- attempt (Movie_save data) ;;
             match saved with
             | Raises (DataError text) =>
                 ret (mkResponse (error_body (Str.strip text)) 400)
             | Raises e => raise e
             | Returns _ => ret (mkResponse (set_Ratings data ratings) 201)
             end
         | Raises e => raise e
         | Returns movie =>
             ratings <- attach_ratings movie ratings ;;
             ret (mkResponse (set_Ratings data ratings) 201)
         end
       else raise (UnboundLocalError "e"))%view
  end.

(** [MovieViewSet.list]; [query_params] is [request.query_params]. *)
Definition list (query_params : gmap string string)
    : M (Response (Datatypes.list Movie)) :=
  let title := query_params !! "title" in
  (s <- get_db ;;
   let queryset := movies s in
   let queryset := match title with
                   | Some t =>
                       List.filter (fun m => Str.icontains t (Models.title m))
                                   queryset
                   | None => queryset
                   end in
   ret (mkResponse queryset 200))%view.

End Views.

End MovieViewSet.

(** ** The fixtures of [movies/tests.py] *)

Module Fixtures.

Import MovieViewSet.

Definition a_rating (source score : string) : gmap string value :=
  {[ "Source" := VStr source; "Value" := VStr score ]}.

(** [movie_citizen_kane()], as far as the tests read it, with its year. *)
Definition movie_citizen_kane : dict :=
  mkDict {[ "Title" := "Citizen Kane"; "Year" := "1941";
            "Production" := "RKO Radio Pictures" ]}
         (Some [ a_rating "Internet Movie Database" "8.4/10";
                 a_rating "Rotten Tomatoes" "100%";
                 a_rating "Metacritic" "100/100" ]).

Fixpoint repeat_string (n : nat) (s : string) : string :=
  match n with
  | O => EmptyString
  | S n' => s +:+ repeat_string n' s
  end.

(** [movie_too_long_data()]: one value is wider than its column. *)
Definition movie_too_long_data : dict :=
  mkDict {[ "Title" := "Pirates of the Caribbean: On Stranger Tides";
            "Year" := "2011";
            "Production" := repeat_string 13 "Walt Disney " ]}
         (Some []).

(** The provider's answer to a title it does not know. *)
Definition movie_not_found : dict :=
  mkDict {[ "Response" := "False"; "Error" := "Movie not found!" ]} None.

(** A record under a stored title that lacks a required field. *)
Definition movie_without_year : dict :=
  mkDict {[ "Title" := "Godfather" ]} (Some [ a_rating "Metacritic" "100/100" ]).

Definition newline : string := String (ascii_of_nat 10) EmptyString.

Definition too_long (width : nat) (s : string) : bool :=
  (width <? String.length s)%nat.

(** A double of the collaborators, after the tests: the provider is patched
    to the fixtures, and the database refuses a value wider than 128
    characters, which the movie serializer lets pass.  The serializers are
    taken to require their fields: a title and a year, a source and a
    value. *)
#[export] Instance patched : Collaborators := {|
  OMDbAPIClient_fetch t :=
    if String.eqb t "Citizen Kane" then movie_citizen_kane
    else if String.eqb t "Stranger Tides" then movie_too_long_data
    else if String.eqb t "Godfather" then movie_without_year
    else movie_not_found;
  MovieSerializer_is_valid _ d :=
    bool_decide (is_Some (items d !! "Title")) &&
    bool_decide (is_Some (items d !! "Year"));
  Movie_DataError d :=
    if existsb (fun kv => too_long 128 (snd kv)) (map_to_list (items d))
    then Some ("value too long for type character varying(128)" +:+ newline)
    else None;
  RatingSerializer_is_valid _ r :=
    bool_decide (is_Some (r !! "Source")) && bool_decide (is_Some (r !! "Value"));
  Rating_DataError r :=
    if too_long 128 (as_string (r !! "Value"))
    then Some ("value too long for type character varying(128)" +:+ newline)
    else None
|}.

Definition godfather : Movie := mkMovie 1 "Godfather" ∅.
Definition the_room : Movie := mkMovie 2 "The Room" ∅.
Definition fantastic_four : Movie := mkMovie 3 "Fantastic Four" ∅.

Definition a_comment (m : Movie) (t : Z) (body : string) : Comment :=
  mkComment t (id m) "Anonymous" body.

(** The store of [test_top_movies_only_including_comments_with_
    insignificant_time_range]; the comments are written at instant 1000. *)
Definition commented_store : Store :=
  mkStore [ godfather; the_room; fantastic_four ] []
          [ a_comment godfather 1000 "It was ok";
            a_comment godfather 1000 "I fell asleep after half an hour";
            a_comment godfather 1000 "I think Marlon Brando was hot";
            a_comment the_room 1000 "Masterpiece beyond our understanding";
            a_comment the_room 1000 "New look at modern drama" ]
          4.

Definition world_of (s : Store) : World := mkWorld s [].

(** The store after Citizen Kane was created in the empty store. *)
Definition kane_stored : Store :=
  mkStore [mkMovie 1 "Citizen Kane" (items movie_citizen_kane)] [] [] 2.


(** Counts in no order, one of them negative, with a rise in the middle. *)
Definition unsorted_rows : Datatypes.list TopMoviesView.Row :=
  [TopMoviesView.mkRow 7 2; TopMoviesView.mkRow 8 5; TopMoviesView.mkRow 9 5;
   TopMoviesView.mkRow 10 (-1); TopMoviesView.mkRow 11 3].

End Fixtures.

(** ** The specification's notions *)

Module Spec.

Import Str TopMoviesView MovieViewSet.

(** The rank the loop gives the next element, after an element of rank
    [last_rank] and count [last_count]. *)
Definition next_rank (last_count last_rank count : Z) : Z :=
  if (last_rank =? 0) || (count <? last_count) then last_rank + 1
  else last_rank.

(** How two neighbours of the loop's output relate. *)
Definition step_ok (a b : Entry) : Prop :=
  (rank b = rank a \/ rank b = rank a + 1) /\
  (rank b = rank a + 1 <-> total_comments b < total_comments a).

(** A comment qualifies when its creation time satisfies every bound that
    is supplied; an absent bound restricts nothing. *)
Definition qualifies (date_from date_to : option Z) (c : Comment) : bool :=
  match date_from with Some d => d <=? created_at c | None => true end &&
  match date_to with Some d => created_at c <=? d | None => true end.

(** The number of a movie's comments that qualify. *)
Definition qualifying_count (date_from date_to : option Z) (s : Store)
    (m : Movie) : Z :=
  Z.of_nat (length (List.filter
                      (fun c => (movie c =? id m) && qualifies date_from date_to c)
                      (comments s))).

(** What a record says: the movie and its count. *)
Definition said (e : Entry) : Z * Z := (movie_id e, total_comments e).

(** The claim as the specification words it: one record for every stored
    movie, with the number of its qualifying comments. *)
Definition one_record_per_movie (query_params : gmap string Z) (w : World)
    : Prop :=
  exists resp,
    fst (get query_params w) = Returns resp /\
    List.map said (data resp) ≡ₚ
    List.map (fun m => (id m, qualifying_count (query_params !! "from")
                                (query_params !! "to") (db w) m))
             (movies (db w)).

(** From the specification's words: the title contains the parameter as
    a substring, the case of letters ignored. *)
Definition occurs_ignoring_case (t s : string) : Prop :=
  exists pre mid post,
    s = pre +:+ mid +:+ post /\ casefold mid = casefold t.

(** The store with one more rating row. *)
Definition with_rating (s : Store) (r : Rating) : Store :=
  mkStore (movies s) (ratings s ++ [r]) (comments s) (movie_seq s).

(** The stored movies that bear a title. *)
Definition titled (c : string) (s : Store) : Datatypes.list Movie :=
  List.filter (fun m => String.eqb (title m) c) (movies s).

Section WithCollaborators.

Context `{Collaborators}.

(** The record the movie serializer sees for a title: the provider's,
    without its ratings. *)
Definition movie_fields (t : string) : dict :=
  snd (pop_Ratings (OMDbAPIClient_fetch t)).

(** The ratings the provider returns for a title. *)
Definition provided_ratings (t : string) : Datatypes.list (gmap string value) :=
  fst (pop_Ratings (OMDbAPIClient_fetch t)).

(** From the specification's words: each rating of the provider is
    attached to the existing movie; one that fails validation or storage
    is skipped, and only that one. *)
Fixpoint attached_rows (m : Movie) (s : Store)
    (rs : Datatypes.list (gmap string value)) : Datatypes.list Rating :=
  match rs with
  | [] => []
  | rating :: rest =>
      let rating := <[ "movie_id" := VInt (id m) ]> rating in
      if RatingSerializer_is_valid s rating &&
         bool_decide (Rating_DataError rating = None)
      then Rating_of rating
           :: attached_rows m (with_rating s (Rating_of rating)) rest
      else attached_rows m s rest
  end.

(** A request for a title not yet stored writes one movie row with the
    canonical title, and one rating row for each rating of the provider. *)
Definition stores_movie_and_ratings (request_data : gmap string string)
    (w : World) : Prop :=
  forall t c,
    request_data !! "title" = Some t ->
    items (OMDbAPIClient_fetch t) !! "Title" = Some c ->
    titled c (db w) = [] ->
    let w' := snd (create request_data w) in
    (exists m, movies (db w') = movies (db w) ++ [m] /\ title m = c) /\
    length (ratings (db w')) =
    (length (ratings (db w)) + length (provided_ratings t))%nat.

(** A request for a title already stored is answered with status 201 and
    writes no movie row. *)
Definition duplicate_is_answered (request_data : gmap string string)
    (w : World) : Prop :=
  forall t c m,
    request_data !! "title" = Some t ->
    items (OMDbAPIClient_fetch t) !! "Title" = Some c ->
    titled c (db w) = [m] ->
    exists resp w',
      create request_data w = (Returns resp, w') /\
      status_code resp = 201 /\ movies (db w') = movies (db w).

End WithCollaborators.

End Spec.

(** ** What the tests call next to the views *)

Module CommentModel.

(** The width of [author], [max_length=64] in [comments/models.py]. *)
Definition author_max_length : nat := 64.

(** Whether the foreign key [movie] finds its row. *)
Definition movie_is_stored (s : Store) (m : Movie) : bool :=
  existsb (fun m' => id m' =? id m) (movies s).

Definition newline : string := String (ascii_of_nat 10) EmptyString.

(** [Comment.objects.create(movie=m, text=..., author=..., created_at=...)]
    under the field declarations of [comments/models.py]: a keyword that
    is left out takes the field's default, ["Anonymous"] for [author] and
    the value of [datetime.utcnow] at the call, here [utcnow], for
    [created_at].  The database refuses an [author] wider than its column
    with [DataError], and a [movie] whose row is not stored with
    [IntegrityError]; it then writes nothing.  [text] is a text column
    without a width. *)
Definition Comment_objects_create (utcnow : Z) (m : Movie) (text : string)
    (author : option string) (created_at : option Z) : M Comment :=
  (s <- get_db ;;
   let c := mkComment (default utcnow created_at) (id m)
                      (default "Anonymous" author) text in
   if (author_max_length <? String.length (Models.author c))%nat then
     raise (DataError
              ("value too long for type character varying(64)" +:+ newline))
   else if negb (movie_is_stored s m) then
     raise (IntegrityError
              ("insert or update on table violates foreign key constraint"
               +:+ newline))
   else
     put_db (mkStore (movies s) (ratings s) (comments s ++ [c])
                     (movie_seq s)) ;;;
     ret c)%view.

End CommentModel.

(** ** Notions of the further properties *)

Module Notions.

Import TopMoviesView MovieViewSet Spec.

(** The movies a request has a record for: all of them without a bound,
    those with a qualifying comment under one. *)
Definition shown (date_from date_to : option Z) (s : Store)
    : Datatypes.list Movie :=
  match date_from, date_to with
  | None, None => movies s
  | _, _ =>
      List.filter (fun m => 0 <? qualifying_count date_from date_to s m)
                  (movies s)
  end.

(** A lower bound that admits whatever the lower bound [b] admits. *)
Definition from_no_later (a b : option Z) : Prop :=
  match a, b with
  | None, _ => True
  | Some x, Some y => x <= y
  | Some _, None => False
  end.

(** An upper bound that admits whatever the upper bound [b] admits. *)
Definition to_no_earlier (a b : option Z) : Prop :=
  match a, b with
  | None, _ => True
  | Some x, Some y => y <= x
  | Some _, None => False
  end.

(** No two stored movies bear the same title. *)
Definition unique_titles (s : Store) : Prop :=
  NoDup (List.map title (movies s)).

(** The first and the last character of a string. *)
Definition first_char (s : string) : option ascii :=
  match s with
  | EmptyString => None
  | String c _ => Some c
  end.

Fixpoint last_char (s : string) : option ascii :=
  match s with
  | EmptyString => None
  | String c EmptyString => Some c
  | String _ s' => last_char s'
  end.

(** A string of white space only. *)
Fixpoint all_space (s : string) : bool :=
  match s with
  | EmptyString => true
  | String c s' => Str.isspace c && all_space s'
  end.

(** In words: [message] is [text] without its leading and its trailing
    white space. *)
Definition stripped_of (text message : string) : Prop :=
  (exists lead trail,
     text = lead +:+ message +:+ trail /\
     all_space lead = true /\ all_space trail = true) /\
  (forall c, first_char message = Some c -> Str.isspace c = false) /\
  (forall c, last_char message = Some c -> Str.isspace c = false).

(** A provider that resolves every title in which the word occurs,
    whatever its case, to the record of Citizen Kane; serializers and
    database as in the double of the tests. *)
Definition by_keyword : Collaborators := {|
  OMDbAPIClient_fetch t :=
    if Str.icontains "kane" t then Fixtures.movie_citizen_kane
    else Fixtures.movie_not_found;
  MovieSerializer_is_valid := @MovieSerializer_is_valid Fixtures.patched;
  Movie_DataError := @Movie_DataError Fixtures.patched;
  RatingSerializer_is_valid := @RatingSerializer_is_valid Fixtures.patched;
  Rating_DataError := @Rating_DataError Fixtures.patched
|}.

(** Serializers that accept every record and a database that stores every
    row, over a provider that knows no title. *)
Definition lenient : Collaborators := {|
  OMDbAPIClient_fetch _ := Fixtures.movie_not_found;
  MovieSerializer_is_valid _ _ := true;
  Movie_DataError _ := None;
  RatingSerializer_is_valid _ _ := true;
  Rating_DataError _ := None
|}.

Section WithCollaborators.

Context `{Collaborators}.

(** Every way a request can run, case by case. *)
Inductive run_of (request_data : gmap string string) (w : World)
    : outcome (Response dict) * World -> Prop :=
| run_no_title :
    request_data !! "title" = None ->
    run_of request_data w
      (Returns (mkResponse (error_body "Title is a required parameter") 400), w)
| run_refused t :
    request_data !! "title" = Some t ->
    MovieSerializer_is_valid (db w) (movie_fields t) = false ->
    run_of request_data w
      (Raises (UnboundLocalError "e"), mkWorld (db w) (fetched w ++ [t]))
| run_no_Title t :
    request_data !! "title" = Some t ->
    MovieSerializer_is_valid (db w) (movie_fields t) = true ->
    items (OMDbAPIClient_fetch t) !! "Title" = None ->
    run_of request_data w
      (Raises (KeyError "Title"), mkWorld (db w) (fetched w ++ [t]))
| run_data_error t c text :
    request_data !! "title" = Some t ->
    items (OMDbAPIClient_fetch t) !! "Title" = Some c ->
    titled c (db w) = [] ->
    Movie_DataError (movie_fields t) = Some text ->
    run_of request_data w
      (Returns (mkResponse (error_body (Str.strip text)) 400),
       mkWorld (db w) (fetched w ++ [t]))
| run_new t c :
    request_data !! "title" = Some t ->
    items (OMDbAPIClient_fetch t) !! "Title" = Some c ->
    titled c (db w) = [] ->
    Movie_DataError (movie_fields t) = None ->
    run_of request_data w
      (Returns (mkResponse (set_Ratings (movie_fields t) (provided_ratings t))
                           201),
       mkWorld (mkStore (movies (db w) ++
                           [mkMovie (movie_seq (db w)) c
                                    (items (OMDbAPIClient_fetch t))])
                        (ratings (db w)) (comments (db w))
                        (movie_seq (db w) + 1))
               (fetched w ++ [t]))
| run_duplicate t c m :
    request_data !! "title" = Some t ->
    items (OMDbAPIClient_fetch t) !! "Title" = Some c ->
    titled c (db w) = [m] ->
    run_of request_data w
      (Returns (mkResponse
                  (set_Ratings (movie_fields t)
                     (List.map (fun r => <[ "movie_id" := VInt (id m) ]> r)
                               (provided_ratings t)))
                  201),
       mkWorld (mkStore (movies (db w))
                        (ratings (db w) ++
                         attached_rows m (db w) (provided_ratings t))
                        (comments (db w)) (movie_seq (db w)))
               (fetched w ++ [t]))
| run_several t c m m' ms :
    request_data !! "title" = Some t ->
    items (OMDbAPIClient_fetch t) !! "Title" = Some c ->
    titled c (db w) = m :: m' :: ms ->
    run_of request_data w
      (Raises MultipleObjectsReturned, mkWorld (db w) (fetched w ++ [t])).

(** The claim on data errors as the specification words it: the body
    reports the raw text of the storage error. *)
Definition reports_raw_text (request_data : gmap string string) (w : World)
    : Prop :=
  forall t c text,
    request_data !! "title" = Some t ->
    MovieSerializer_is_valid (db w) (movie_fields t) = true ->
    items (OMDbAPIClient_fetch t) !! "Title" = Some c ->
    titled c (db w) = [] ->
    fst (Movie_save (movie_fields t) (mkWorld (db w) (fetched w ++ [t]))) =
      Raises (DataError text) ->
    exists w',
      create request_data w =
        (Returns (mkResponse (mkDict {[ "string" := text ]} None) 400), w') /\
      db w' = db w.

End WithCollaborators.

End Notions.

(** * Properties *)

(** ** The rank loop *)

Module Ranking.

Import TopMoviesView Spec Fixtures.

Lemma rank_loop_response qs last_count last_rank response :
  rank_loop qs last_count last_rank response =
  response ++ rank_loop qs last_count last_rank [].
Proof.
  revert last_count last_rank response.
  induction qs as [|element rest IH]; intros lc lr resp; simpl.
  - by rewrite app_nil_r.
  - rewrite IH. rewrite (IH _ _ [_]). by rewrite <- app_assoc.
Qed.

Lemma rank_loop_cons element rest last_count last_rank :
  rank_loop (element :: rest) last_count last_rank [] =
  mkEntry (row_id element)
          (next_rank last_count last_rank (row_total_comments element))
          (row_total_comments element)
  :: rank_loop rest (row_total_comments element)
       (next_rank last_count last_rank (row_total_comments element)) [].
Proof. simpl. by rewrite rank_loop_response. Qed.

Lemma next_rank_positive last_count last_rank count :
  0 <= last_rank -> 0 < next_rank last_count last_rank count.
Proof.
  unfold next_rank. intros Hle.
  destruct (last_rank =? 0) eqn:E0; simpl.
  - lia.
  - apply Z.eqb_neq in E0. destruct (count <? last_count); lia.
Qed.

(** The loop keeps the rows, in their order, and only adds the rank. *)
Lemma rank_loop_rows qs last_count last_rank :
  List.map (fun e => mkRow (movie_id e) (total_comments e))
           (rank_loop qs last_count last_rank []) = qs.
Proof.
  revert last_count last_rank.
  induction qs as [|[i c] rest IH]; intros lc lr; [done|].
  rewrite rank_loop_cons. simpl. by rewrite IH.
Qed.

Lemma next_rank_step i last_count last_rank j count :
  0 < last_rank ->
  step_ok (mkEntry i last_rank last_count)
          (mkEntry j (next_rank last_count last_rank count) count).
Proof.
  intros Hpos. unfold step_ok, next_rank. simpl.
  assert ((last_rank =? 0) = false) as -> by (apply Z.eqb_neq; lia).
  simpl. destruct (count <? last_count) eqn:E.
  - apply Z.ltb_lt in E. split; [by right|]. split; auto.
  - apply Z.ltb_ge in E. split; [by left|]. split; lia.
Qed.

(** After an element of positive rank, every pair of neighbours is a
    step of the loop. *)
Lemma rank_loop_steps qs prev :
  0 < rank prev ->
  forall (i : nat) (a b : Entry),
    (prev :: rank_loop qs (total_comments prev) (rank prev) []) !! i = Some a ->
    (prev :: rank_loop qs (total_comments prev) (rank prev) []) !! S i = Some b ->
    step_ok a b.
Proof.
  revert prev. induction qs as [|element rest IH]; intros prev Hpos i a b Ha Hb.
  - destruct i; simpl in *; discriminate.
  - rewrite rank_loop_cons in Ha, Hb.
    destruct i as [|i].
    + simpl in Ha, Hb. inversion Ha; inversion Hb; subst.
      destruct a as [ia ra ca]. simpl in *. by apply next_rank_step.
    + simpl in Ha, Hb.
      set (e := mkEntry (row_id element)
                  (next_rank (total_comments prev) (rank prev)
                             (row_total_comments element))
                  (row_total_comments element)) in *.
      apply (IH e) with (i := i); simpl; auto.
      apply next_rank_positive. lia.
Qed.

Lemma assign_ranks_cons element rest :
  assign_ranks (element :: rest) =
  mkEntry (row_id element) 1 (row_total_comments element)
  :: rank_loop rest (row_total_comments element) 1 [].
Proof. unfold assign_ranks. by rewrite rank_loop_cons. Qed.

Lemma assign_ranks_first qs e : head (assign_ranks qs) = Some e -> rank e = 1.
Proof.
  destruct qs as [|element rest]; [done|].
  rewrite assign_ranks_cons. simpl. by intros [= <-].
Qed.

Lemma assign_ranks_steps qs (i : nat) (a b : Entry) :
  assign_ranks qs !! i = Some a -> assign_ranks qs !! S i = Some b ->
  step_ok a b.
Proof.
  destruct qs as [|element rest]; [done|].
  rewrite assign_ranks_cons. intros Ha Hb.
  set (e := mkEntry (row_id element) 1 (row_total_comments element)) in *.
  apply (rank_loop_steps rest e) with (i := i); simpl; auto. lia.
Qed.

(** In a query set ordered by count, descending, a neighbour never has
    the greater count. *)
Lemma sorted_neighbours (qs : Datatypes.list Row) (i : nat) (x y : Row) :
  Sorted by_total_comments_desc qs ->
  qs !! i = Some x -> qs !! S i = Some y ->
  row_total_comments y <= row_total_comments x.
Proof.
  intros Hs. revert i. induction Hs as [|z l Hl IH Hhd]; intros i Hx Hy; [done|].
  destruct i as [|i].
  - simpl in Hx, Hy. inversion Hx; subst.
    destruct l as [|y' l']; [done|]. simpl in Hy. inversion Hy; subst.
    by inversion Hhd.
  - simpl in Hx, Hy. by apply (IH i).
Qed.

Lemma assign_ranks_lookup qs (i : nat) (e : Entry) :
  assign_ranks qs !! i = Some e ->
  qs !! i = Some (mkRow (movie_id e) (total_comments e)).
Proof.
  intros He. unfold assign_ranks in He.
  rewrite <- (rank_loop_rows qs 0 0) at 1.
  change (List.map ?f ?l) with (f <$> l).
  rewrite list_lookup_fmap, He. done.
Qed.

#[export] Instance by_total_comments_desc_total : Total by_total_comments_desc.
Proof. intros a b. unfold by_total_comments_desc. lia. Qed.

Lemma order_by_sorted rows :
  Sorted by_total_comments_desc (order_by_total_comments_desc rows).
Proof. apply Sorted_merge_sort. apply _. Qed.

Lemma order_by_permutation rows : order_by_total_comments_desc rows ≡ₚ rows.
Proof. apply merge_sort_Permutation. Qed.



(** The view's response is [assign_ranks] of a sorted query set, for every
    store and every request. *)
Lemma get_dense_rank (query_params : gmap string Z) (w : World) :
  exists qs,
    Sorted by_total_comments_desc qs /\
    get query_params w = (Returns (mkResponse (assign_ranks qs) 200), w).
Proof.
  eexists. split; [|reflexivity]. apply order_by_sorted.
Qed.

(** C10: through the rank loop, any finite sequence of counts, sorted or
    not, comes out with rank 1 on the first record; each later record has
    its predecessor's rank or that rank plus 1, and it has the latter
    exactly when its count is strictly less than its predecessor's.  The
    loop keeps the records' identifiers and counts in their order. *)
Theorem rank_loop_steps_any_sequence (qs : Datatypes.list Row) :
  (forall e, head (assign_ranks qs) = Some e -> rank e = 1) /\
  (forall (i : nat) (a b : Entry),
     assign_ranks qs !! i = Some a -> assign_ranks qs !! S i = Some b ->
     (rank b = rank a \/ rank b = rank a + 1) /\
     (rank b = rank a + 1 <-> total_comments b < total_comments a)) /\
  List.map (fun e => mkRow (movie_id e) (total_comments e)) (assign_ranks qs)
  = qs.
Proof.
  split; [apply assign_ranks_first|]. split.
  - intros i a b Ha Hb. apply (assign_ranks_steps qs i a b Ha Hb).
  - apply rank_loop_rows.
Qed.

Lemma rank_loop_steps_any_sequence_witness :
  assign_ranks unsorted_rows =
    [mkEntry 7 1 2; mkEntry 8 1 5; mkEntry 9 1 5; mkEntry 10 2 (-1);
     mkEntry 11 2 3] /\
  rank (mkEntry 7 1 2) = 1 /\
  (rank (mkEntry 8 1 5) = rank (mkEntry 7 1 2) + 1 <-> 5 < 2) /\
  (rank (mkEntry 10 2 (-1)) = rank (mkEntry 9 1 5) + 1 <-> -1 < 5).
Proof.
  destruct (rank_loop_steps_any_sequence unsorted_rows) as (Hfirst & Hstep & _).
  split; [reflexivity|]. split; [|split].
  - apply Hfirst. reflexivity.
  - apply (Hstep 0%nat (mkEntry 7 1 2) (mkEntry 8 1 5)); reflexivity.
  - apply (Hstep 2%nat (mkEntry 9 1 5) (mkEntry 10 2 (-1))); reflexivity.
Defined.

End Ranking.

(** ** The counts of the ranking *)

Module Counting.

Import TopMoviesView Spec Fixtures.

Lemma filter_filter_andb {A} (p q : A -> bool) (l : Datatypes.list A) :
  List.filter q (List.filter p l) = List.filter (fun x => p x && q x) l.
Proof.
  induction l as [|x l IH]; [done|]. simpl.
  destruct (p x); simpl; [destruct (q x)|]; by rewrite IH.
Qed.

Lemma collected_filters_hold date_from date_to c :
  forallb (fun q => Q_holds q c) (collect_filters date_from date_to) =
  qualifies date_from date_to c.
Proof.
  unfold collect_filters, qualifies.
  destruct date_from, date_to; simpl; by rewrite ?andb_true_r.
Qed.

Lemma joined_comments_count date_from date_to s m :
  Z.of_nat (length (joined_comments (collect_filters date_from date_to) s m)) =
  qualifying_count date_from date_to s m.
Proof.
  unfold joined_comments, related_comments, qualifying_count.
  rewrite filter_filter_andb. do 2 f_equal.
  apply List.filter_ext. intros c. by rewrite collected_filters_hold.
Qed.

Lemma related_comments_count s m :
  Z.of_nat (length (related_comments s m)) = qualifying_count None None s m.
Proof.
  unfold related_comments, qualifying_count. do 2 f_equal.
  apply List.filter_ext. intros c. unfold qualifies. by rewrite andb_true_r.
Qed.

(** Without a bound the annotation has a row for every movie. *)
Lemma annotate_without_bounds s :
  annotate_total_comments (collect_filters None None) s =
  List.map (fun m => mkRow (id m) (qualifying_count None None s m)) (movies s).
Proof.
  simpl. apply List.map_ext. intros m. by rewrite related_comments_count.
Qed.

Lemma annotate_joined filters s :
  filters <> [] ->
  annotate_total_comments filters s =
  List.map (fun m => mkRow (id m)
                       (Z.of_nat (length (joined_comments filters s m))))
    (List.filter
       (fun m => 0 <? Z.of_nat (length (joined_comments filters s m)))
       (movies s)).
Proof.
  intros Hne. unfold annotate_total_comments.
  destruct filters as [|q qs]; [done|]. clear Hne.
  generalize (q :: qs). intros fs.
  induction (movies s) as [|m ms IH]; [done|].
  cbn [flat_map List.filter]. rewrite IH.
  destruct (joined_comments fs s m) as [|c cs] eqn:Hj; [done|].
  assert ((0 <? Z.of_nat (length (c :: cs))) = true) as ->
    by (apply Z.ltb_lt; simpl; lia).
  cbn [List.map]. by rewrite Hj.
Qed.

(** With a bound it has a row for the movies with a qualifying comment. *)
Lemma annotate_with_bounds date_from date_to s :
  collect_filters date_from date_to <> [] ->
  annotate_total_comments (collect_filters date_from date_to) s =
  List.map (fun m => mkRow (id m) (qualifying_count date_from date_to s m))
    (List.filter (fun m => 0 <? qualifying_count date_from date_to s m)
                 (movies s)).
Proof.
  intros Hne. rewrite annotate_joined by done.
  erewrite List.filter_ext; [apply List.map_ext|];
    intros m; by rewrite joined_comments_count.
Qed.

Lemma collect_filters_nil date_from date_to :
  collect_filters date_from date_to = [] <-> date_from = None /\ date_to = None.
Proof.
  unfold collect_filters. destruct date_from, date_to; simpl; split;
    intros; try done; destruct_and?; done.
Qed.

Lemma said_assign_ranks qs :
  List.map said (assign_ranks qs) =
  List.map (fun r => (row_id r, row_total_comments r)) qs.
Proof.
  rewrite <- (Ranking.rank_loop_rows qs 0 0) at 2.
  rewrite List.map_map. done.
Qed.

(** What the records of a response say, up to their order. *)
Lemma get_says query_params w :
  exists resp,
    get query_params w = (Returns resp, w) /\ status_code resp = 200 /\
    List.map said (data resp) ≡ₚ
    List.map (fun r => (row_id r, row_total_comments r))
      (annotate_total_comments
         (collect_filters (query_params !! "from") (query_params !! "to"))
         (db w)).
Proof.
  eexists. split; [reflexivity|]. split; [reflexivity|]. simpl.
  rewrite said_assign_ranks. apply Permutation_map.
  apply Ranking.order_by_permutation.
Qed.

(** C1, amended: a request without bounds is answered with exactly one
    record for every stored movie, whose [total_comments] is the number of
    the movie's comments, 0 included; a request with a [from] or a [to]
    bound is answered with exactly one record for every stored movie that
    has a comment satisfying all supplied bounds, whose [total_comments] is
    the number of these comments, and with no record for the other movies;
    the status is 200, nothing is written, and an empty movie set yields the
    empty list. *)
Theorem total_comments_of_response (query_params : gmap string Z) (w : World) :
  let date_from := query_params !! "from" in
  let date_to := query_params !! "to" in
  let count := qualifying_count date_from date_to (db w) in
  exists resp,
    get query_params w = (Returns resp, w) /\ status_code resp = 200 /\
    (date_from = None /\ date_to = None ->
     List.map said (data resp) ≡ₚ
     List.map (fun m => (id m, count m)) (movies (db w))) /\
    (date_from <> None \/ date_to <> None ->
     List.map said (data resp) ≡ₚ
     List.map (fun m => (id m, count m))
              (List.filter (fun m => 0 <? count m) (movies (db w)))) /\
    (movies (db w) = [] -> data resp = []).
Proof.
  intros date_from date_to count.
  destruct (get_says query_params w) as (resp & Hget & Hstatus & Hsaid).
  fold date_from date_to in Hsaid.
  exists resp. split; [done|]. split; [done|]. split; [|split].
  - intros [Hf Ht]. unfold count. rewrite Hf, Ht in *.
    rewrite annotate_without_bounds, List.map_map in Hsaid. done.
  - intros Hsome. unfold count.
    rewrite annotate_with_bounds, List.map_map in Hsaid; [done|].
    rewrite collect_filters_nil. intros [Hf Ht]. destruct Hsome; done.
  - intros Hempty.
    assert (annotate_total_comments (collect_filters date_from date_to) (db w)
            = []) as Hnil.
    { unfold annotate_total_comments. rewrite Hempty.
      by destruct (collect_filters date_from date_to). }
    rewrite Hnil in Hsaid. simpl in Hsaid.
    apply Permutation_nil_r in Hsaid.
    by destruct (data resp).
Qed.

(** C1 as worded fails on the store of the time-range test: under the
    bounds 900 and 1100 the movie without comments has no record. *)
Lemma one_record_per_movie_fails :
  fst (get {[ "from" := 900; "to" := 1100 ]} (world_of commented_store))
  = Returns (mkResponse [mkEntry 1 1 3; mkEntry 2 2 2] 200) /\
  ~ one_record_per_movie {[ "from" := 900; "to" := 1100 ]}
      (world_of commented_store).
Proof.
  split; [reflexivity|]. intros (resp & Hget & Hsaid).
  vm_compute in Hget. injection Hget as <-.
  apply Permutation_length in Hsaid. vm_compute in Hsaid. discriminate.
Qed.

End Counting.

(** ** [str.strip] *)

Module StripFacts.

Import Str Notions.

Lemma lstrip_first s c : first_char (lstrip s) = Some c -> isspace c = false.
Proof.
  induction s as [|a s IH]; simpl; [done|].
  destruct (isspace a) eqn:Ha; [done|]. simpl. by intros [= <-].
Qed.

Lemma rstrip_first s c :
  first_char (rstrip s) = Some c -> first_char s = Some c.
Proof.
  destruct s as [|a s]; simpl; [done|].
  destruct (rstrip s); [|done]. by destruct (isspace a).
Qed.

Lemma rstrip_last s c : last_char (rstrip s) = Some c -> isspace c = false.
Proof.
  induction s as [|a s IH]; simpl; [done|].
  destruct (rstrip s) as [|b r] eqn:Hr.
  - destruct (isspace a) eqn:Ha; simpl; [done|]. by intros [= <-].
  - intros Hlast. apply IH. exact Hlast.
Qed.

(** What [lstrip] takes away is white space at the front. *)
Lemma lstrip_split s :
  exists lead, s = lead +:+ lstrip s /\ all_space lead = true.
Proof.
  induction s as [|a s (lead & Hs & Hlead)]; [by exists EmptyString|].
  simpl. destruct (isspace a) eqn:Ha.
  - exists (String a lead). split.
    + change (String a s = String a (lead +:+ lstrip s)). by f_equal.
    + simpl. by rewrite Ha, Hlead.
  - by exists EmptyString.
Qed.

(** What [rstrip] takes away is white space at the end. *)
Lemma rstrip_split s :
  exists trail, s = rstrip s +:+ trail /\ all_space trail = true.
Proof.
  induction s as [|a s (trail & Hs & Htrail)]; [by exists EmptyString|].
  simpl. destruct (rstrip s) as [|b r] eqn:Hr.
  - change (EmptyString +:+ trail) with trail in Hs. subst s.
    destruct (isspace a) eqn:Ha.
    + exists (String a trail). split; [done|]. simpl. by rewrite Ha, Htrail.
    + by exists trail.
  - exists trail. split; [|done].
    change (String a s = String a (String b r +:+ trail)). by f_equal.
Qed.

(** [strip] returns the text without its leading and trailing white
    space. *)
Lemma strip_stripped s : stripped_of s (strip s).
Proof.
  unfold stripped_of, strip. split; [|split].
  - destruct (lstrip_split s) as (lead & Hs & Hlead).
    destruct (rstrip_split (lstrip s)) as (trail & Hl & Htrail).
    exists lead, trail. split; [|done]. by rewrite <- Hl.
  - intros c Hc. by apply (lstrip_first s), rstrip_first.
  - intros c Hc. by apply (rstrip_last (lstrip s)).
Qed.

End StripFacts.

(** ** [MovieViewSet.create] *)

Module Creation.

Import MovieViewSet Spec Notions.

Section WithCollaborators.

Context `{Collaborators}.

Ltac run_view :=
  repeat (unfold create, attach_rating, bind, fetch, is_valid, getitem,
            attempt, get_db, put_db, ret, raise; simpl).

Lemma Movie_objects_get_runs c w :
  Movie_objects_get c w =
  (match titled c (db w) with
   | [] => Raises DoesNotExist
   | [m] => Returns m
   | _ :: _ :: _ => Raises MultipleObjectsReturned
   end, w).
Proof.
  unfold Movie_objects_get, titled. run_view.
  by destruct (List.filter _ _) as [|m [|m' ms]].
Qed.

Lemma Movie_save_runs d w :
  Movie_save d w =
  match Movie_DataError d with
  | Some text => (Raises (DataError text), w)
  | None =>
      let m := mkMovie (movie_seq (db w))
                       (default EmptyString (items d !! "Title")) (items d) in
      (Returns m,
       mkWorld (mkStore (movies (db w) ++ [m]) (ratings (db w))
                        (comments (db w)) (movie_seq (db w) + 1))
               (fetched w))
  end.
Proof. unfold Movie_save. run_view. by destruct (Movie_DataError d). Qed.

Lemma Rating_save_runs rating w :
  Rating_save rating w =
  match Rating_DataError rating with
  | Some text => (Raises (DataError text), w)
  | None =>
      (Returns (Rating_of rating),
       mkWorld (with_rating (db w) (Rating_of rating)) (fetched w))
  end.
Proof. unfold Rating_save. run_view. by destruct (Rating_DataError rating). Qed.

(** Up to the lookup of the stored movie, a request with a title whose
    record is valid and has a ["Title"] runs the same way. *)
Lemma create_valid request_data w t c :
  request_data !! "title" = Some t ->
  MovieSerializer_is_valid (db w) (movie_fields t) = true ->
  items (OMDbAPIClient_fetch t) !! "Title" = Some c ->
  create request_data w =
  let w1 := mkWorld (db w) (fetched w ++ [t]) in
  match titled c (db w) with
  | [] =>
      match Movie_DataError (movie_fields t) with
      | Some text => (Returns (mkResponse (error_body (Str.strip text)) 400), w1)
      | None =>
          (Returns (mkResponse (set_Ratings (movie_fields t)
                                            (provided_ratings t)) 201),
           mkWorld (mkStore (movies (db w) ++
                               [mkMovie (movie_seq (db w)) c
                                        (items (OMDbAPIClient_fetch t))])
                            (ratings (db w)) (comments (db w))
                            (movie_seq (db w) + 1))
                   (fetched w ++ [t]))
      end
  | [m] =>
      match attach_ratings m (provided_ratings t) w1 with
      | (Returns rs, w2) =>
          (Returns (mkResponse (set_Ratings (movie_fields t) rs) 201), w2)
      | (Raises e, w2) => (Raises e, w2)
      end
  | _ :: _ :: _ => (Raises MultipleObjectsReturned, w1)
  end.
Proof.
  intros Ht Hvalid Hc.
  unfold movie_fields, provided_ratings, pop_Ratings in *. simpl in *.
  unfold create. rewrite Ht. run_view. rewrite Hvalid. rewrite Hc.
  rewrite Movie_objects_get_runs. simpl.
  destruct (titled c (db w)) as [|m [|m' ms]]; simpl; [|done..].
  rewrite Movie_save_runs. simpl.
  destruct (Movie_DataError _); simpl; [done|]. by rewrite Hc.
Qed.

(** A request without a title returns at once. *)
Lemma create_without_title request_data w :
  request_data !! "title" = None ->
  create request_data w =
  (Returns (mkResponse (error_body "Title is a required parameter") 400), w).
Proof. intros Ht. unfold create. by rewrite Ht. Qed.

(** A request whose record the movie serializer refuses. *)
Lemma create_invalid request_data w t :
  request_data !! "title" = Some t ->
  MovieSerializer_is_valid (db w) (movie_fields t) = false ->
  create request_data w =
  (Raises (UnboundLocalError "e"), mkWorld (db w) (fetched w ++ [t])).
Proof.
  intros Ht Hinvalid. unfold movie_fields, pop_Ratings in *. simpl in *.
  unfold create. rewrite Ht. run_view. by rewrite Hinvalid.
Qed.

(** One turn of the loop: the dict gains its ["movie_id"], and its row
    is written when the serializer accepts it and the database stores it;
    the turn returns in every case. *)
Lemma attach_rating_runs m rating w :
  let rating' := <[ "movie_id" := VInt (id m) ]> rating in
  attach_rating m rating w =
  (Returns rating',
   mkWorld (if RatingSerializer_is_valid (db w) rating' &&
               bool_decide (Rating_DataError rating' = None)
            then with_rating (db w) (Rating_of rating') else db w)
           (fetched w)).
Proof.
  intros rating'. unfold attach_rating. fold rating'. run_view.
  destruct (RatingSerializer_is_valid (db w) rating'); simpl.
  - rewrite Rating_save_runs.
    destruct (Rating_DataError rating') as [text|]; simpl;
      by destruct w as [s f].
  - by destruct w as [s f].
Qed.

(** The loop returns the list of the changed dicts, and has written the
    rows the specification's words describe, after the rows that were
    there; it leaves the other relations as they were. *)
Lemma attach_ratings_runs m rs w :
  attach_ratings m rs w =
  (Returns (List.map (fun r => <[ "movie_id" := VInt (id m) ]> r) rs),
   mkWorld (mkStore (movies (db w))
                    (ratings (db w) ++ attached_rows m (db w) rs)
                    (comments (db w)) (movie_seq (db w)))
           (fetched w)).
Proof.
  revert w. induction rs as [|rating rest IH]; intros w.
  - simpl. run_view. rewrite app_nil_r. by destruct w as [[] ?].
  - cbn [attach_ratings attached_rows List.map]. unfold bind at 1.
    rewrite attach_rating_runs. cbn zeta. unfold bind at 1. rewrite IH.
    run_view.
    destruct (RatingSerializer_is_valid (db w) _ && bool_decide _); simpl.
    + by rewrite <- app_assoc.
    + done.
Qed.

Lemma attached_rows_movie m s rs :
  Forall (fun r => rating_movie_id r = id m) (attached_rows m s rs).
Proof.
  revert s. induction rs as [|rating rest IH]; intros s; simpl; [constructor|].
  destruct (RatingSerializer_is_valid s _ && bool_decide _); [|apply IH].
  constructor; [|apply IH].
  unfold Rating_of. simpl. by rewrite lookup_insert_eq.
Qed.

(** C3, amended: a creation request whose canonical title is not yet
    stored, whose record passes the movie serializer's validation and whose
    row the database stores without a data error, persists exactly one new
    movie row, which bears the provider's canonical title, and is answered
    with status 201. *)
Theorem new_title_persists_one_movie request_data w t c :
  request_data !! "title" = Some t ->
  MovieSerializer_is_valid (db w) (movie_fields t) = true ->
  items (OMDbAPIClient_fetch t) !! "Title" = Some c ->
  titled c (db w) = [] ->
  Movie_DataError (movie_fields t) = None ->
  exists resp w' m,
    create request_data w = (Returns resp, w') /\
    status_code resp = 201 /\
    movies (db w') = movies (db w) ++ [m] /\
    title m = c /\
    titled c (db w') = [m].
Proof.
  intros Ht Hvalid Hc Hnew Hstored.
  rewrite (create_valid _ _ _ _ Ht Hvalid Hc). cbn zeta.
  rewrite Hnew, Hstored. do 3 eexists. split; [reflexivity|].
  split; [done|]. split; [done|]. split; [done|].
  unfold titled in *. simpl. rewrite List.filter_app, Hnew. simpl.
  by rewrite String.eqb_refl.
Qed.

(** C5, amended: a creation request whose canonical title already names a
    stored movie, and whose record passes the movie serializer's
    validation, creates no movie row and is answered with status 201; each
    rating of the provider is attached to the existing movie, and a rating
    that fails validation or storage is skipped alone: the loop goes on, no
    error propagates, and the response is the successful one. *)
Theorem duplicate_title_attaches_ratings request_data w t c m :
  request_data !! "title" = Some t ->
  MovieSerializer_is_valid (db w) (movie_fields t) = true ->
  items (OMDbAPIClient_fetch t) !! "Title" = Some c ->
  titled c (db w) = [m] ->
  exists resp w',
    create request_data w = (Returns resp, w') /\
    status_code resp = 201 /\
    movies (db w') = movies (db w) /\
    comments (db w') = comments (db w) /\
    ratings (db w') =
      ratings (db w) ++ attached_rows m (db w) (provided_ratings t) /\
    Forall (fun r => rating_movie_id r = id m)
           (attached_rows m (db w) (provided_ratings t)).
Proof.
  intros Ht Hvalid Hc Hdup.
  rewrite (create_valid _ _ _ _ Ht Hvalid Hc). cbn zeta.
  rewrite Hdup, attach_ratings_runs. do 2 eexists.
  split; [reflexivity|]. simpl. repeat split; try done.
  apply attached_rows_movie.
Qed.

(** C6, amended: when the row of a creation request is refused by the
    database with a data error, the request is answered with status 400 and
    the body [{"string": message}], of this one key, where [message] is the
    error's text without its leading and trailing white space; the store is
    as it was: no movie row, no partial write. *)
Theorem data_error_is_answered_400 request_data w t c text :
  request_data !! "title" = Some t ->
  MovieSerializer_is_valid (db w) (movie_fields t) = true ->
  items (OMDbAPIClient_fetch t) !! "Title" = Some c ->
  titled c (db w) = [] ->
  fst (Movie_save (movie_fields t) (mkWorld (db w) (fetched w ++ [t]))) =
    Raises (DataError text) ->
  exists w' message,
    create request_data w =
      (Returns (mkResponse (mkDict {[ "string" := message ]} None) 400), w') /\
    db w' = db w /\
    stripped_of text message.
Proof.
  intros Ht Hvalid Hc Hnew Hsave.
  rewrite (create_valid _ _ _ _ Ht Hvalid Hc). cbn zeta.
  rewrite Hnew. rewrite Movie_save_runs in Hsave.
  destruct (Movie_DataError (movie_fields t)) as [text'|]; [|done].
  simpl in Hsave. injection Hsave as ->.
  eexists _, (Str.strip text). split; [reflexivity|]. split; [done|].
  apply StripFacts.strip_stripped.
Qed.

(** C7: a creation request without the key ["title"] is answered with
    status 400 and the body [{"string": "Title is a required parameter"}],
    of this one key; the world is as it was: the provider was not called,
    and no row of any relation was created or changed. *)
Theorem missing_title_is_answered_400 request_data w :
  request_data !! "title" = None ->
  create request_data w =
  (Returns (mkResponse
              (mkDict {[ "string" := "Title is a required parameter" ]} None)
              400), w).
Proof. intros Ht. by rewrite create_without_title. Qed.

(** The body of a request answered with status 201, on either path: the
    provider's entries, and under ["Ratings"] the list the view holds when
    it returns. *)
Lemma created_response_body request_data w resp w' :
  create request_data w = (Returns resp, w') ->
  status_code resp = 201 ->
  exists t c,
    request_data !! "title" = Some t /\
    items (OMDbAPIClient_fetch t) !! "Title" = Some c /\
    ((titled c (db w) = [] /\
      data resp = mkDict (items (OMDbAPIClient_fetch t))
                         (Some (provided_ratings t))) \/
     (exists m,
        titled c (db w) = [m] /\
        data resp =
          mkDict (items (OMDbAPIClient_fetch t))
            (Some (List.map (fun r => <[ "movie_id" := VInt (id m) ]> r)
                            (provided_ratings t))))).
Proof.
  intros Hrun Hstatus.
  destruct (request_data !! "title") as [t|] eqn:Ht.
  2: { rewrite create_without_title in Hrun by done.
       injection Hrun as <- _. done. }
  destruct (MovieSerializer_is_valid (db w) (movie_fields t)) eqn:Hvalid.
  2: { by rewrite (create_invalid _ _ _ Ht Hvalid) in Hrun. }
  destruct (items (OMDbAPIClient_fetch t) !! "Title") as [c|] eqn:Hc.
  2: { unfold movie_fields, pop_Ratings in Hvalid. simpl in Hvalid.
       unfold create in Hrun. rewrite Ht in Hrun. run_view.
       revert Hrun. run_view. by rewrite Hvalid, Hc. }
  exists t, c. split; [done|]. split; [done|].
  rewrite (create_valid _ _ _ _ Ht Hvalid Hc) in Hrun. cbn zeta in Hrun.
  destruct (titled c (db w)) as [|m [|m' ms]]; [| |done].
  - left. split; [done|].
    destruct (Movie_DataError (movie_fields t)).
    + injection Hrun as <- _. done.
    + injection Hrun as <- _. done.
  - right. exists m. split; [done|].
    rewrite attach_ratings_runs in Hrun. injection Hrun as <- _. done.
Qed.

End WithCollaborators.

Import Fixtures.

Lemma new_title_persists_one_movie_witness :
  exists resp w' m,
    create {[ "title" := "Citizen Kane" ]} (world_of empty_store)
      = (Returns resp, w') /\
    status_code resp = 201 /\
    movies (db w') = movies empty_store ++ [m] /\
    title m = "Citizen Kane" /\
    titled "Citizen Kane" (db w') = [m].
Proof.
  apply (new_title_persists_one_movie
           {[ "title" := "Citizen Kane" ]} (world_of empty_store)
           "Citizen Kane" "Citizen Kane"); reflexivity.
Defined.

Lemma duplicate_title_attaches_ratings_witness :
  let m := mkMovie 1 "Citizen Kane" (items movie_citizen_kane) in
  exists resp w',
    create {[ "title" := "Citizen Kane" ]} (world_of kane_stored)
      = (Returns resp, w') /\
    status_code resp = 201 /\
    movies (db w') = movies kane_stored /\
    comments (db w') = comments kane_stored /\
    ratings (db w') =
      ratings kane_stored ++
      attached_rows m kane_stored (provided_ratings "Citizen Kane") /\
    Forall (fun r => rating_movie_id r = id m)
           (attached_rows m kane_stored (provided_ratings "Citizen Kane")).
Proof.
  apply (duplicate_title_attaches_ratings
           {[ "title" := "Citizen Kane" ]} (world_of kane_stored)
           "Citizen Kane" "Citizen Kane"); reflexivity.
Defined.

(** The three ratings of the fixture are the rows the loop writes. *)
Lemma kane_attached_rows :
  attached_rows (mkMovie 1 "Citizen Kane" (items movie_citizen_kane))
                kane_stored (provided_ratings "Citizen Kane") =
  [ mkRating 1 "Internet Movie Database" "8.4/10";
    mkRating 1 "Rotten Tomatoes" "100%";
    mkRating 1 "Metacritic" "100/100" ].
Proof. reflexivity. Qed.

Lemma data_error_is_answered_400_witness :
  exists w' message,
    create {[ "title" := "Stranger Tides" ]} (world_of empty_store) =
      (Returns (mkResponse (mkDict {[ "string" := message ]} None) 400), w') /\
    db w' = empty_store /\
    stripped_of ("value too long for type character varying(128)" +:+ newline)
                message.
Proof.
  apply (data_error_is_answered_400
           {[ "title" := "Stranger Tides" ]} (world_of empty_store)
           "Stranger Tides" "Pirates of the Caribbean: On Stranger Tides"
           ("value too long for type character varying(128)" +:+ newline));
    reflexivity.
Defined.

(** On the fixture the message is the text without its final newline. *)
Lemma stranger_tides_message :
  fst (create {[ "title" := "Stranger Tides" ]} (world_of empty_store)) =
  Returns (mkResponse
             (mkDict {[ "string" :=
                          "value too long for type character varying(128)" ]}
                     None)
             400).
Proof. reflexivity. Qed.

(** C6 as worded fails on the record with the value that is too long:
    the database's text ends with a newline, and the body reports the text
    without it, as [movies/tests.py] expects. *)
Lemma reports_raw_text_fails :
  ~ reports_raw_text {[ "title" := "Stranger Tides" ]} (world_of empty_store).
Proof.
  intros Hclaim.
  destruct (Hclaim "Stranger Tides"
              "Pirates of the Caribbean: On Stranger Tides"
              ("value too long for type character varying(128)" +:+ newline))
    as (w' & Hrun & _); [reflexivity..|].
  apply (f_equal fst) in Hrun. rewrite stranger_tides_message in Hrun.
  apply (f_equal (fun o : outcome (Response dict) =>
                    match o with
                    | Returns r => items (data r) !! "string"
                    | Raises _ => None
                    end)) in Hrun.
  vm_compute in Hrun. discriminate.
Qed.

Lemma missing_title_is_answered_400_witness :
  create ∅ (world_of commented_store) =
  (Returns (mkResponse
              (mkDict {[ "string" := "Title is a required parameter" ]} None)
              400),
   world_of commented_store).
Proof. apply missing_title_is_answered_400. reflexivity. Defined.

(** C4: the request of a title the provider does not know.  The record has
    no ["Title"], the movie serializer refuses it, and the view raises
    [UnboundLocalError] where a response of status 400 with the validation
    detail is claimed; the store is as it was. *)
Theorem refused_record_raises :
  MovieSerializer_is_valid commented_store (movie_fields "Unknown") = false /\
  create {[ "title" := "Unknown" ]} (world_of commented_store) =
  (Raises (UnboundLocalError "e"), mkWorld commented_store ["Unknown"]).
Proof.
  split; [reflexivity|].
  exact (create_invalid {[ "title" := "Unknown" ]} (world_of commented_store)
           "Unknown" eq_refl eq_refl).
Qed.

(** C3 as worded fails twice: after the creation of Citizen Kane no rating
    row is stored for its three ratings, and the record with the value that
    is too long leaves no movie row. *)
Lemma stores_movie_and_ratings_fails :
  ~ stores_movie_and_ratings {[ "title" := "Citizen Kane" ]}
      (world_of empty_store) /\
  ~ stores_movie_and_ratings {[ "title" := "Stranger Tides" ]}
      (world_of empty_store).
Proof.
  split; intros Hclaim.
  - destruct (Hclaim "Citizen Kane" "Citizen Kane") as [_ Hratings];
      [reflexivity..|]. vm_compute in Hratings. discriminate.
  - destruct (Hclaim "Stranger Tides"
                "Pirates of the Caribbean: On Stranger Tides")
      as [[m [Hmovies _]] _]; [reflexivity..|].
    vm_compute in Hmovies. discriminate.
Qed.

(** C5 as worded fails on a record under a stored title that the movie
    serializer refuses: the request is not answered. *)
Lemma duplicate_is_answered_fails :
  ~ duplicate_is_answered {[ "title" := "Godfather" ]}
      (world_of commented_store).
Proof.
  intros Hclaim.
  destruct (Hclaim "Godfather" "Godfather" godfather)
    as (resp & w' & Hrun & _); [reflexivity..|].
  rewrite (create_invalid _ _ "Godfather") in Hrun by reflexivity.
  discriminate.
Qed.

(** C8: the two requests of Citizen Kane.  The first, which inserts the
    movie, is answered with the provider's record and its ratings list
    under ["Ratings"]; the second, which finds the movie stored, is
    answered with a ratings list that is not the provider's: each rating
    carries the key ["movie_id"] that the loop set on it for the
    serializer. *)
Theorem duplicate_response_carries_movie_id :
  let provided := provided_ratings "Citizen Kane" in
  let changed := List.map (fun r => <[ "movie_id" := VInt 1 ]> r) provided in
  fst (create {[ "title" := "Citizen Kane" ]} (world_of empty_store)) =
    Returns (mkResponse (mkDict (items movie_citizen_kane) (Some provided))
                        201) /\
  fst (create {[ "title" := "Citizen Kane" ]} (world_of kane_stored)) =
    Returns (mkResponse (mkDict (items movie_citizen_kane) (Some changed))
                        201) /\
  changed <> provided.
Proof.
  cbn zeta. split; [reflexivity|]. split; [reflexivity|].
  intros Heq.
  apply (f_equal (fun l : Datatypes.list (gmap string value) =>
                    r ← head l; r !! "movie_id")) in Heq.
  vm_compute in Heq. discriminate.
Qed.

End Creation.

(** ** [MovieViewSet.list] *)

Module Listing.

Import Str Spec Fixtures.

Lemma startswith_spec p s :
  startswith p s = true <-> exists post, s = p +:+ post.
Proof.
  revert s. induction p as [|a p IH]; intros s; simpl.
  - split; [intros _; by exists s|done].
  - destruct s as [|b s]; simpl.
    + split; [done|]. by intros [post Hpost].
    + rewrite andb_true_iff, IH. split.
      * intros [Hab [post ->]]. apply Ascii.eqb_eq in Hab as ->. by exists post.
      * intros [post Hpost]. injection Hpost as -> ->.
        split; [apply Ascii.eqb_refl|by exists post].
Qed.

Lemma contains_spec needle hay :
  contains needle hay = true <-> exists pre post, hay = pre +:+ needle +:+ post.
Proof.
  induction hay as [|b hay IH]; simpl.
  - rewrite orb_false_r, startswith_spec. split.
    + intros [post Hpost]. by exists EmptyString, post.
    + intros [[|a pre] [post Hpost]]; [by exists post|done].
  - rewrite orb_true_iff, startswith_spec, IH. split.
    + intros [[post Hpost]|(pre & post & ->)].
      * by exists EmptyString, post.
      * by exists (String b pre), post.
    + intros [[|a pre] [post Hpost]].
      * left. by exists post.
      * right. injection Hpost as -> ->. by exists pre, post.
Qed.

Lemma casefold_app a b : casefold (a +:+ b) = casefold a +:+ casefold b.
Proof. induction a as [|c a IH]; simpl; [done|]. by rewrite IH. Qed.

(** A folded string splits where the string does. *)
Lemma casefold_split s a b :
  casefold s = a +:+ b ->
  exists s1 s2, s = s1 +:+ s2 /\ casefold s1 = a /\ casefold s2 = b.
Proof.
  revert s. induction a as [|c a IH]; intros s Hs; simpl in Hs.
  - by exists EmptyString, s.
  - destruct s as [|d s]; [done|]. simpl in Hs. injection Hs as <- Hs.
    destruct (IH s Hs) as (s1 & s2 & -> & <- & <-).
    by exists (String d s1), s2.
Qed.

Lemma icontains_spec t s :
  icontains t s = true <-> occurs_ignoring_case t s.
Proof.
  unfold icontains, occurs_ignoring_case. rewrite contains_spec. split.
  - intros (pre' & post' & Hs).
    destruct (casefold_split _ _ _ Hs) as (pre & rest & -> & <- & Hrest).
    destruct (casefold_split _ _ _ Hrest) as (mid & post & -> & Hmid & <-).
    by exists pre, mid, post.
  - intros (pre & mid & post & -> & Hmid).
    exists (casefold pre), (casefold post).
    by rewrite !casefold_app, Hmid.
Qed.

(** C9: a listing request with a [title] parameter is answered with the
    stored movies whose title contains the parameter as a substring, the
    case of letters ignored, and with these only; without the parameter it
    is answered with all stored movies; the status is 200 and the world is
    as it was, so that no relation is written. *)
Theorem list_matches_title (query_params : gmap string string) (w : World) :
  exists resp,
    MovieViewSet.list query_params w = (Returns resp, w) /\
    status_code resp = 200 /\
    (query_params !! "title" = None -> data resp = movies (db w)) /\
    (forall t, query_params !! "title" = Some t ->
       forall m, In m (data resp) <->
                 In m (movies (db w)) /\ occurs_ignoring_case t (title m)).
Proof.
  unfold MovieViewSet.list, bind, get_db, ret. eexists.
  split; [reflexivity|]. split; [reflexivity|]. simpl. split.
  - by intros ->.
  - intros t -> m. by rewrite List.filter_In, icontains_spec.
Qed.

Lemma list_matches_title_witness :
  MovieViewSet.list {[ "title" := "the" ]}
    (world_of commented_store) =
  (Returns (mkResponse [godfather; the_room] 200),
   world_of commented_store) /\
  (In the_room [godfather; the_room] <->
   In the_room (movies commented_store) /\
   occurs_ignoring_case "the" "The Room").
Proof.
  destruct (list_matches_title {[ "title" := "the" ]}
              (world_of commented_store))
    as (resp & Hrun & _ & _ & Hsome).
  injection Hrun as <-. split; [reflexivity|].
  apply (Hsome "the"). reflexivity.
Defined.

End Listing.

(** ** Further properties of [TopMoviesView.get] *)

Module RankingMore.

Import TopMoviesView Spec Fixtures Notions.

(** Entries apart in a list whose neighbours are steps of the loop and
    whose counts never rise from one entry to the next. *)
Lemma steps_apart (l : Datatypes.list Entry) :
  (forall (i : nat) a b, l !! i = Some a -> l !! S i = Some b ->
     step_ok a b /\ total_comments b <= total_comments a) ->
  forall (d i : nat) a b,
    l !! i = Some a -> l !! (i + d)%nat = Some b ->
    total_comments b <= total_comments a /\ rank a <= rank b /\
    (total_comments b < total_comments a <-> rank a < rank b).
Proof.
  intros Hadj. induction d as [|d IH]; intros i a b Ha Hb.
  - rewrite Nat.add_0_r in Hb. rewrite Ha in Hb. injection Hb as <-. lia.
  - rewrite Nat.add_succ_r in Hb.
    destruct (lookup_lt_is_Some_2 l (i + d)) as [c Hc].
    { apply lookup_lt_Some in Hb. lia. }
    destruct (IH i a c Ha Hc) as (Hle & Hrk & Hiff).
    destruct (Hadj _ _ _ Hc Hb) as [[Hor Hup] Hle'].
    lia.
Qed.

Lemma sorted_response_neighbours qs :
  Sorted by_total_comments_desc qs ->
  forall (i : nat) a b,
    assign_ranks qs !! i = Some a -> assign_ranks qs !! S i = Some b ->
    step_ok a b /\ total_comments b <= total_comments a.
Proof.
  intros Hs i a b Ha Hb. split.
  - apply (Ranking.assign_ranks_steps qs i a b Ha Hb).
  - apply (Ranking.sorted_neighbours qs i _ _ Hs
             (Ranking.assign_ranks_lookup _ _ _ Ha)
             (Ranking.assign_ranks_lookup _ _ _ Hb)).
Qed.

Lemma sorted_response_apart qs (i j : nat) a b :
  Sorted by_total_comments_desc qs -> (i <= j)%nat ->
  assign_ranks qs !! i = Some a -> assign_ranks qs !! j = Some b ->
  total_comments b <= total_comments a /\ rank a <= rank b /\
  (total_comments b < total_comments a <-> rank a < rank b).
Proof.
  intros Hs Hij Ha Hb.
  apply (steps_apart _ (sorted_response_neighbours qs Hs) (j - i) i a b Ha).
  by replace (i + (j - i))%nat with j by lia.
Qed.

(** The records of a response come in descending order of their counts,
    and their ranks never fall along the response. *)
Theorem response_in_descending_order (query_params : gmap string Z)
    (w : World) :
  exists resp,
    get query_params w = (Returns resp, w) /\
    forall (i j : nat) a b,
      (i <= j)%nat -> data resp !! i = Some a -> data resp !! j = Some b ->
      total_comments b <= total_comments a /\ rank a <= rank b.
Proof.
  destruct (Ranking.get_dense_rank query_params w) as (qs & Hs & Hget).
  eexists. split; [exact Hget|]. simpl. intros i j a b Hij Ha Hb.
  destruct (sorted_response_apart qs i j a b Hs Hij Ha Hb) as (? & ? & _).
  done.
Qed.

(** In a response the ranks order the records as the counts do: of two
    records, the one with more comments has the lower rank, and two records
    have the same rank exactly when they have the same count, wherever they
    stand. *)
Theorem rank_orders_as_count (query_params : gmap string Z) (w : World) :
  exists resp,
    get query_params w = (Returns resp, w) /\
    forall a b,
      In a (data resp) -> In b (data resp) ->
      (total_comments b < total_comments a <-> rank a < rank b) /\
      (total_comments a = total_comments b <-> rank a = rank b).
Proof.
  destruct (Ranking.get_dense_rank query_params w) as (qs & Hs & Hget).
  eexists. split; [exact Hget|]. simpl. intros a b Ha Hb.
  apply list_elem_of_In, list_elem_of_lookup in Ha as [i Ha].
  apply list_elem_of_In, list_elem_of_lookup in Hb as [j Hb].
  destruct (Nat.le_ge_cases i j) as [Hij|Hji].
  - destruct (sorted_response_apart qs i j a b Hs Hij Ha Hb) as (? & ? & ?).
    lia.
  - destruct (sorted_response_apart qs j i b a Hs Hji Hb Ha) as (? & ? & ?).
    lia.
Qed.

Lemma ranks_reach_down qs (i : nat) e r :
  assign_ranks qs !! i = Some e -> 1 <= r <= rank e ->
  exists e', In e' (assign_ranks qs) /\ rank e' = r.
Proof.
  revert e. induction i as [|i IH]; intros e He Hr.
  - exists e. split.
    + apply list_elem_of_In, list_elem_of_lookup. by exists 0%nat.
    + assert (rank e = 1) as Hone; [|lia].
      apply (Ranking.assign_ranks_first qs).
      by destruct (assign_ranks qs); simpl in *.
  - destruct (lookup_lt_is_Some_2 (assign_ranks qs) i) as [c Hc].
    { apply lookup_lt_Some in He. lia. }
    destruct (Ranking.assign_ranks_steps qs i c e Hc He) as [Hor _].
    destruct (decide (r <= rank c)) as [Hle|Hgt].
    + apply (IH c Hc). lia.
    + exists e. split; [|lia].
      apply list_elem_of_In, list_elem_of_lookup. by exists (S i).
Qed.

(** The ranks the loop gives have no gaps, whatever the sequence of
    counts: with a record of some rank, every rank from 1 up to it is the
    rank of some record. *)
Theorem ranks_without_gaps (qs : Datatypes.list Row) (e : Entry) (r : Z) :
  In e (assign_ranks qs) -> 1 <= r <= rank e ->
  exists e', In e' (assign_ranks qs) /\ rank e' = r.
Proof.
  intros He Hr.
  apply list_elem_of_In, list_elem_of_lookup in He as [i He].
  by apply (ranks_reach_down qs i e r).
Qed.

Lemma ranks_without_gaps_witness :
  exists e', In e' (assign_ranks unsorted_rows) /\ rank e' = 1.
Proof.
  apply (ranks_without_gaps unsorted_rows (mkEntry 11 2 3) 1).
  - simpl. auto 10.
  - simpl. lia.
Defined.

End RankingMore.

(** ** Further properties of the counts *)

Module CountingMore.

Import TopMoviesView Spec Fixtures Notions.

(** What a response says, up to the order, in terms of the stored movies. *)
Lemma get_shows query_params w :
  exists resp,
    get query_params w = (Returns resp, w) /\
    List.map said (data resp) ≡ₚ
    List.map (fun m => (id m, qualifying_count (query_params !! "from")
                                (query_params !! "to") (db w) m))
      (shown (query_params !! "from") (query_params !! "to") (db w)).
Proof.
  destruct (Counting.get_says query_params w) as (resp & Hget & _ & Hsaid).
  exists resp. split; [done|]. unfold shown.
  destruct (query_params !! "from") as [f|] eqn:Hf,
           (query_params !! "to") as [t|] eqn:Ht.
  4: { by rewrite Counting.annotate_without_bounds, List.map_map in Hsaid. }
  all: rewrite Counting.annotate_with_bounds, List.map_map in Hsaid;
    [done|by rewrite Counting.collect_filters_nil; intros []].
Qed.

(** A record of a response is the record of a shown movie. *)
Lemma record_of_shown query_params w resp e :
  get query_params w = (Returns resp, w) -> In e (data resp) ->
  exists m,
    In m (shown (query_params !! "from") (query_params !! "to") (db w)) /\
    movie_id e = id m /\
    total_comments e = qualifying_count (query_params !! "from")
                         (query_params !! "to") (db w) m.
Proof.
  intros Hget He.
  destruct (get_shows query_params w) as (resp' & Hget' & Hsaid).
  rewrite Hget in Hget'. injection Hget' as <-.
  apply (List.in_map said) in He.
  apply list_elem_of_In in He. rewrite Hsaid in He.
  apply list_elem_of_In, List.in_map_iff in He as (m & Hm & Hin).
  exists m. injection Hm as Hid Hcount. done.
Qed.

(** A shown movie has its record in the response. *)
Lemma shown_has_record query_params w resp m :
  get query_params w = (Returns resp, w) ->
  In m (shown (query_params !! "from") (query_params !! "to") (db w)) ->
  exists e,
    In e (data resp) /\ movie_id e = id m /\
    total_comments e = qualifying_count (query_params !! "from")
                         (query_params !! "to") (db w) m.
Proof.
  intros Hget Hm.
  destruct (get_shows query_params w) as (resp' & Hget' & Hsaid).
  rewrite Hget in Hget'. injection Hget' as <-.
  apply (List.in_map
           (fun m => (id m, qualifying_count (query_params !! "from")
                              (query_params !! "to") (db w) m))) in Hm.
  apply list_elem_of_In in Hm. rewrite <- Hsaid in Hm.
  apply list_elem_of_In, List.in_map_iff in Hm as (e & He & Hin).
  exists e. injection He as Hid Hcount. done.
Qed.

Lemma filter_length_le {A} (p q : A -> bool) (l : Datatypes.list A) :
  (forall x, p x = true -> q x = true) ->
  (length (List.filter p l) <= length (List.filter q l))%nat.
Proof.
  intros Hpq. induction l as [|x l IH]; simpl; [lia|].
  destruct (p x) eqn:Hp.
  - rewrite (Hpq x Hp). simpl. lia.
  - destruct (q x); simpl; lia.
Qed.

Lemma qualifies_wider f1 t1 f2 t2 c :
  from_no_later f2 f1 -> to_no_earlier t2 t1 ->
  qualifies f1 t1 c = true -> qualifies f2 t2 c = true.
Proof.
  unfold qualifies, from_no_later, to_no_earlier.
  intros Hf Ht. rewrite !andb_true_iff.
  destruct f1, f2, t1, t2; try done; rewrite ?Z.leb_le in *; intuition lia.
Qed.

Lemma qualifying_count_wider f1 t1 f2 t2 s m :
  from_no_later f2 f1 -> to_no_earlier t2 t1 ->
  qualifying_count f1 t1 s m <= qualifying_count f2 t2 s m.
Proof.
  intros Hf Ht. unfold qualifying_count. apply inj_le, filter_length_le.
  intros c. rewrite !andb_true_iff.
  intros [Hm Hq]. split; [done|]. by apply (qualifies_wider f1 t1).
Qed.

Lemma empty_window_count f t s m :
  t < f -> qualifying_count (Some f) (Some t) s m = 0.
Proof.
  intros Hlt. unfold qualifying_count.
  induction (comments s) as [|c cs IH]; [done|]. simpl.
  assert ((movie c =? id m) && qualifies (Some f) (Some t) c = false) as ->;
    [|exact IH].
  apply andb_false_iff. right. unfold qualifies.
  apply andb_false_iff. destruct (f <=? created_at c) eqn:Hfc; [|by left].
  right. apply Z.leb_gt. apply Z.leb_le in Hfc. lia.
Qed.

(** A request whose lower bound lies after its upper bound is answered
    with the empty list. *)
Theorem empty_window_empty_response (query_params : gmap string Z)
    (w : World) (f t : Z) :
  query_params !! "from" = Some f -> query_params !! "to" = Some t ->
  t < f ->
  get query_params w = (Returns (mkResponse [] 200), w).
Proof.
  intros Hf Ht Hlt.
  assert (List.filter (fun m => 0 <? qualifying_count (Some f) (Some t) (db w) m)
                      (movies (db w)) = []) as Hnone.
  { induction (movies (db w)) as [|m ms IH]; [done|]. cbn [List.filter].
    rewrite (empty_window_count f t (db w) m Hlt). exact IH. }
  destruct (get_shows query_params w) as (resp & Hget & Hsaid).
  rewrite Hf, Ht in Hsaid. unfold shown in Hsaid.
  rewrite Hnone in Hsaid. simpl in Hsaid. apply Permutation_nil_r in Hsaid.
  destruct (Counting.get_says query_params w) as (resp' & Hget' & Hstatus & _).
  rewrite Hget in Hget'. injection Hget' as <-.
  rewrite Hget. destruct resp as [d st]. simpl in *. subst st.
  by destruct d.
Qed.

Lemma empty_window_empty_response_witness :
  get {[ "from" := 1100; "to" := 900 ]} (world_of commented_store) =
  (Returns (mkResponse [] 200), world_of commented_store).
Proof.
  apply (empty_window_empty_response _ _ 1100 900); [reflexivity..|lia].
Defined.

(** Under a bound every record of the response counts at least one
    comment: a movie without a qualifying comment has no record. *)
Theorem bounded_records_are_positive (query_params : gmap string Z)
    (w : World) (resp : Response (Datatypes.list Entry)) (e : Entry) :
  query_params !! "from" <> None \/ query_params !! "to" <> None ->
  get query_params w = (Returns resp, w) -> In e (data resp) ->
  1 <= total_comments e.
Proof.
  intros Hbound Hget He.
  destruct (record_of_shown _ _ _ _ Hget He) as (m & Hm & _ & ->).
  unfold shown in Hm.
  destruct (query_params !! "from"), (query_params !! "to");
    try (apply List.filter_In in Hm as [_ Hpos]; apply Z.ltb_lt in Hpos; lia).
  by destruct Hbound.
Qed.

Lemma bounded_records_are_positive_witness :
  1 <= total_comments (mkEntry 2 2 2).
Proof.
  apply (bounded_records_are_positive
           {[ "from" := 900; "to" := 1100 ]} (world_of commented_store)
           (mkResponse [mkEntry 1 1 3; mkEntry 2 2 2] 200)).
  - left. discriminate.
  - reflexivity.
  - simpl. auto.
Defined.

(** Widening the window loses no record and lowers no count: every movie
    with a record under the narrower bounds has a record under the wider
    ones, with at least as many comments. *)
Theorem wider_window_counts_more (narrow wide : gmap string Z) (w : World)
    (resp : Response (Datatypes.list Entry)) (e : Entry) :
  from_no_later (wide !! "from") (narrow !! "from") ->
  to_no_earlier (wide !! "to") (narrow !! "to") ->
  get narrow w = (Returns resp, w) -> In e (data resp) ->
  exists resp' e',
    get wide w = (Returns resp', w) /\ In e' (data resp') /\
    movie_id e' = movie_id e /\ total_comments e <= total_comments e'.
Proof.
  intros Hf Ht Hget He.
  destruct (record_of_shown _ _ _ _ Hget He) as (m & Hm & Hid & Hcount).
  pose proof (qualifying_count_wider _ _ _ _ (db w) m Hf Ht) as Hle.
  destruct (get_shows wide w) as (resp' & Hget' & _).
  assert (In m (shown (wide !! "from") (wide !! "to") (db w))) as Hm'.
  { unfold shown in *.
    destruct (wide !! "from") as [f2|], (wide !! "to") as [t2|],
             (narrow !! "from") as [f1|], (narrow !! "to") as [t1|];
      simpl in Hf, Ht; try done;
      try (apply List.filter_In in Hm as [Hin Hpos]; apply Z.ltb_lt in Hpos);
      try (apply List.filter_In; split; [done|apply Z.ltb_lt; lia]);
      done. }
  destruct (shown_has_record _ _ _ _ Hget' Hm') as (e' & He' & Hid' & Hcount').
  exists resp', e'. split; [done|]. split; [done|]. split; [congruence|lia].
Qed.

Lemma wider_window_counts_more_witness :
  exists resp' e',
    get ∅ (world_of commented_store) = (Returns resp', world_of commented_store) /\
    In e' (data resp') /\
    movie_id e' = 2 /\ 2 <= total_comments e'.
Proof.
  apply (wider_window_counts_more
           {[ "from" := 900; "to" := 1100 ]} ∅ (world_of commented_store)
           (mkResponse [mkEntry 1 1 3; mkEntry 2 2 2] 200) (mkEntry 2 2 2)).
  - exact I.
  - exact I.
  - reflexivity.
  - simpl. auto.
Defined.

(** The bounds are inclusive: a comment written at the very instant that
    is both the lower and the upper bound is counted for its movie. *)
Theorem bounds_are_inclusive (w : World) (m : Movie) (c : Comment) :
  In m (movies (db w)) -> In c (comments (db w)) -> movie c = id m ->
  exists resp e,
    get {[ "from" := created_at c; "to" := created_at c ]} w
      = (Returns resp, w) /\
    In e (data resp) /\ movie_id e = id m /\ 1 <= total_comments e.
Proof.
  intros Hm Hc Hfk.
  set (qp := ({[ "from" := created_at c; "to" := created_at c ]}
              : gmap string Z)).
  assert (qp !! "from" = Some (created_at c)) as Hf by reflexivity.
  assert (qp !! "to" = Some (created_at c)) as Ht by reflexivity.
  destruct (get_shows qp w) as (resp & Hget & _).
  assert (1 <= qualifying_count (qp !! "from") (qp !! "to") (db w) m) as Hpos.
  { rewrite Hf, Ht. unfold qualifying_count.
    assert (In c (List.filter
                    (fun c0 => (movie c0 =? id m) &&
                               qualifies (Some (created_at c))
                                         (Some (created_at c)) c0)
                    (comments (db w)))) as Hin.
    { apply List.filter_In. split; [done|]. unfold qualifies.
      rewrite Hfk, Z.eqb_refl, Z.leb_refl. done. }
    destruct (List.filter _ _); [done|]. simpl. lia. }
  assert (In m (shown (qp !! "from") (qp !! "to") (db w))) as Hshown.
  { rewrite Hf, Ht in *. unfold shown. apply List.filter_In.
    split; [done|]. apply Z.ltb_lt. lia. }
  destruct (shown_has_record _ _ _ _ Hget Hshown) as (e & He & Hid & Hcount).
  exists resp, e. split; [done|]. split; [done|]. split; [done|]. lia.
Qed.

Lemma bounds_are_inclusive_witness :
  exists resp e,
    get {[ "from" := 1000; "to" := 1000 ]} (world_of commented_store)
      = (Returns resp, world_of commented_store) /\
    In e (data resp) /\ movie_id e = 2 /\ 1 <= total_comments e.
Proof.
  apply (bounds_are_inclusive (world_of commented_store) the_room
           (a_comment the_room 1000 "New look at modern drama")).
  - simpl. auto.
  - simpl. auto 10.
  - reflexivity.
Defined.

End CountingMore.

(** ** Further properties of [MovieViewSet.create] *)

Module CreationMore.

Import MovieViewSet Spec Notions.

Section WithCollaborators.

Context `{Collaborators}.

(** A request whose record passes validation but has no ["Title"]. *)
Lemma create_without_Title request_data w t :
  request_data !! "title" = Some t ->
  MovieSerializer_is_valid (db w) (movie_fields t) = true ->
  items (OMDbAPIClient_fetch t) !! "Title" = None ->
  create request_data w =
  (Raises (KeyError "Title"), mkWorld (db w) (fetched w ++ [t])).
Proof.
  intros Ht Hvalid Hc. unfold movie_fields, pop_Ratings in Hvalid.
  simpl in Hvalid. unfold create. rewrite Ht.
  unfold bind, fetch, is_valid, get_db, ret. simpl. rewrite Hvalid.
  unfold getitem. simpl. by rewrite Hc.
Qed.

Lemma create_runs request_data w :
  run_of request_data w (create request_data w).
Proof.
  destruct (request_data !! "title") as [t|] eqn:Ht.
  2: { rewrite Creation.create_without_title by done. by constructor. }
  destruct (MovieSerializer_is_valid (db w) (movie_fields t)) eqn:Hvalid.
  2: { rewrite (Creation.create_invalid _ _ _ Ht Hvalid). by constructor. }
  destruct (items (OMDbAPIClient_fetch t) !! "Title") as [c|] eqn:Hc.
  2: { rewrite (create_without_Title _ _ _ Ht Hvalid Hc). by constructor. }
  rewrite (Creation.create_valid _ _ _ _ Ht Hvalid Hc). cbn zeta.
  destruct (titled c (db w)) as [|m [|m' ms]] eqn:Htitled.
  - destruct (Movie_DataError (movie_fields t)) as [text|] eqn:Herr.
    + by apply (run_data_error _ _ t c text).
    + by apply (run_new _ _ t c).
  - rewrite Creation.attach_ratings_runs. simpl.
    by apply (run_duplicate _ _ t c m).
  - by apply (run_several _ _ t c m m' ms).
Qed.

(** Of the requests the provider answers, one that returns answers with
    status 201 or 400, and none lets out what the view catches: the
    [DoesNotExist] of the lookup and the [DataError] of a refused movie or
    rating row never leave it. *)
Theorem create_catches_what_it_handles (request_data : gmap string string)
    (w : World) :
  match fst (create request_data w) with
  | Returns resp => status_code resp = 201 \/ status_code resp = 400
  | Raises e => e <> DoesNotExist /\ forall text, e <> DataError text
  end.
Proof.
  destruct (create_runs request_data w); simpl; auto.
Qed.

(** A creation request with a title calls the provider exactly once, with
    the title of the request, whether it then succeeds, is refused or
    raises. *)
Theorem provider_is_called_once (request_data : gmap string string)
    (w : World) (t : string) :
  request_data !! "title" = Some t ->
  fetched (snd (create request_data w)) = fetched w ++ [t].
Proof.
  intros Ht. destruct (create_runs request_data w); simpl; congruence.
Qed.

(** A creation request changes and removes no stored row: the movies and
    the ratings after it are those before it, followed by at most one new
    movie and by new ratings, and the comments are as they were. *)
Theorem create_only_appends (request_data : gmap string string) (w : World) :
  let w' := snd (create request_data w) in
  exists (new_movies : Datatypes.list Movie)
         (new_ratings : Datatypes.list Rating),
    movies (db w') = movies (db w) ++ new_movies /\
    (length new_movies <= 1)%nat /\
    ratings (db w') = ratings (db w) ++ new_ratings /\
    comments (db w') = comments (db w).
Proof.
  cbn zeta. destruct (create_runs request_data w); simpl.
  5: { eexists [_], []. by rewrite !app_nil_r. }
  5: { eexists [], _. rewrite app_nil_r. simpl. repeat split; auto. }
  all: exists [], []; rewrite !app_nil_r; simpl; auto.
Qed.

Lemma titled_none_not_in c s :
  titled c s = [] -> ~ In c (List.map title (movies s)).
Proof.
  unfold titled. intros Hnone Hin.
  apply List.in_map_iff in Hin as (m & Hm & Hin).
  assert (In m (List.filter (fun m => String.eqb (title m) c) (movies s)))
    as Hf.
  { apply List.filter_In. split; [done|]. by apply String.eqb_eq. }
  by rewrite Hnone in Hf.
Qed.

Lemma unique_titled_at_most_one c (ms : Datatypes.list Movie) :
  NoDup (List.map title ms) ->
  (length (List.filter (fun m => String.eqb (title m) c) ms) <= 1)%nat.
Proof.
  induction ms as [|m ms IH]; simpl; [lia|].
  intros Hnd. apply NoDup_cons in Hnd as [Hnotin Hnd].
  destruct (String.eqb (title m) c) eqn:Heq; [|by apply IH].
  apply String.eqb_eq in Heq. simpl.
  assert (List.filter (fun m => String.eqb (title m) c) ms = []) as ->;
    [|simpl; lia].
  destruct (List.filter _ ms) as [|m' ms'] eqn:Hf; [done|].
  exfalso. apply Hnotin.
  assert (In m' (List.filter (fun m => String.eqb (title m) c) ms)) as Hin
    by (rewrite Hf; by left).
  apply List.filter_In in Hin as [Hin Heq'].
  apply String.eqb_eq in Heq'. apply list_elem_of_In.
  apply List.in_map_iff. exists m'. split; [congruence|done].
Qed.

(** Creation keeps the titles of the stored movies distinct: a store
    without two movies of one title has none after any request. *)
Theorem create_keeps_titles_unique (request_data : gmap string string)
    (w : World) :
  unique_titles (db w) ->
  unique_titles (db (snd (create request_data w))).
Proof.
  unfold unique_titles. intros Hnd.
  destruct (create_runs request_data w) as [| | | |t c Ht Hc Hnew Herr| |];
    simpl; try done.
  rewrite List.map_app. simpl. apply NoDup_app. split; [done|].
  split; [|apply NoDup_singleton].
  intros x Hx Hx'. apply list_elem_of_singleton in Hx' as ->.
  apply (titled_none_not_in c (db w) Hnew). by apply list_elem_of_In.
Qed.

(** While the stored titles are distinct, the lookup of the canonical
    title never finds several movies: no request raises
    [MultipleObjectsReturned]. *)
Theorem unique_titles_never_several (request_data : gmap string string)
    (w : World) :
  unique_titles (db w) ->
  fst (create request_data w) <> Raises MultipleObjectsReturned.
Proof.
  unfold unique_titles. intros Hnd.
  destruct (create_runs request_data w)
    as [| | | | | |t c m m' ms Ht Hc Hseveral]; simpl; try done.
  pose proof (unique_titled_at_most_one c (movies (db w)) Hnd) as Hle.
  unfold titled in Hseveral. rewrite Hseveral in Hle. simpl in Hle. lia.
Qed.

(** After a request answered with status 201, a further request that the
    provider resolves to the same canonical title, whatever title it asks
    for, creates no movie: it is answered with status 201 and the movie
    rows are those the first request left. *)
Theorem same_canonical_title_creates_no_movie
    (first second : gmap string string) (w w1 : World)
    (resp1 : Response dict) (t1 t2 c : string) :
  first !! "title" = Some t1 ->
  items (OMDbAPIClient_fetch t1) !! "Title" = Some c ->
  create first w = (Returns resp1, w1) -> status_code resp1 = 201 ->
  second !! "title" = Some t2 ->
  items (OMDbAPIClient_fetch t2) !! "Title" = Some c ->
  MovieSerializer_is_valid (db w1) (movie_fields t2) = true ->
  exists resp2 w2,
    create second w1 = (Returns resp2, w2) /\ status_code resp2 = 201 /\
    movies (db w2) = movies (db w1).
Proof.
  intros Ht1 Hc1 Hrun1 Hstatus Ht2 Hc2 Hvalid2.
  assert (exists m, titled c (db w1) = [m]) as [m Hm].
  { pose proof (create_runs first w) as Hcase. rewrite Hrun1 in Hcase.
    inversion Hcase; subst; simpl in *; try done; try congruence.
    - match goal with
      | Hnew : titled ?c0 (db w) = [] |- _ =>
          assert (c0 = c) as -> by congruence;
          eexists; unfold titled in *; simpl;
          rewrite List.filter_app, Hnew; simpl;
          by rewrite String.eqb_refl
      end.
    - match goal with
      | Hdup : titled ?c0 (db w) = [?m0] |- _ =>
          assert (c0 = c) as -> by congruence; by exists m0
      end. }
  rewrite (Creation.create_valid _ _ _ _ Ht2 Hvalid2 Hc2). cbn zeta.
  rewrite Hm, Creation.attach_ratings_runs. by do 2 eexists.
Qed.

(** A request that inserts a new movie writes no rating row, whatever
    ratings the provider returned and the response lists: the rating loop
    belongs to the branch of a movie that was found. *)
Theorem new_movie_writes_no_rating (request_data : gmap string string)
    (w : World) (t c : string) :
  request_data !! "title" = Some t ->
  MovieSerializer_is_valid (db w) (movie_fields t) = true ->
  items (OMDbAPIClient_fetch t) !! "Title" = Some c ->
  titled c (db w) = [] ->
  Movie_DataError (movie_fields t) = None ->
  exists resp w',
    create request_data w = (Returns resp, w') /\ status_code resp = 201 /\
    Ratings (data resp) = Some (provided_ratings t) /\
    ratings (db w') = ratings (db w) /\
    comments (db w') = comments (db w).
Proof.
  intros Ht Hvalid Hc Hnew Herr.
  rewrite (Creation.create_valid _ _ _ _ Ht Hvalid Hc). cbn zeta.
  rewrite Hnew, Herr. by do 2 eexists.
Qed.

(** A record that passes validation without the key ["Title"] makes the
    view raise [KeyError] on it, after the provider was called and before
    any row is written. *)
Theorem missing_Title_raises_KeyError (request_data : gmap string string)
    (w : World) (t : string) :
  request_data !! "title" = Some t ->
  MovieSerializer_is_valid (db w) (movie_fields t) = true ->
  items (OMDbAPIClient_fetch t) !! "Title" = None ->
  create request_data w =
  (Raises (KeyError "Title"), mkWorld (db w) (fetched w ++ [t])).
Proof. apply create_without_Title. Qed.

Lemma attached_rows_all m s rs :
  (forall s' r, In r rs ->
     RatingSerializer_is_valid s' (<[ "movie_id" := VInt (id m) ]> r) = true /\
     Rating_DataError (<[ "movie_id" := VInt (id m) ]> r) = None) ->
  attached_rows m s rs =
  List.map (fun r => mkRating (id m) (as_string (r !! "Source"))
                              (as_string (r !! "Value"))) rs.
Proof.
  revert s. induction rs as [|r rs IH]; intros s Hall; [done|]. simpl.
  destruct (Hall s r) as [-> ->]; [by left|]. simpl.
  rewrite IH by (intros; apply Hall; by right).
  f_equal. unfold Rating_of.
  rewrite lookup_insert_eq, !lookup_insert_ne by done. done.
Qed.

(** When the canonical title is stored and both the rating serializer and
    the database accept every rating of the provider, the request writes
    one rating row for each of them, in the provider's order, after the
    rows that were there: each bears the stored movie's identifier and the
    rating's source and value. *)
Theorem accepted_ratings_are_all_attached
    (request_data : gmap string string) (w : World) (t c : string)
    (m : Movie) :
  request_data !! "title" = Some t ->
  MovieSerializer_is_valid (db w) (movie_fields t) = true ->
  items (OMDbAPIClient_fetch t) !! "Title" = Some c ->
  titled c (db w) = [m] ->
  (forall s r, In r (provided_ratings t) ->
     RatingSerializer_is_valid s (<[ "movie_id" := VInt (id m) ]> r) = true /\
     Rating_DataError (<[ "movie_id" := VInt (id m) ]> r) = None) ->
  ratings (db (snd (create request_data w))) =
  ratings (db w) ++
  List.map (fun r => mkRating (id m) (as_string (r !! "Source"))
                              (as_string (r !! "Value")))
           (provided_ratings t).
Proof.
  intros Ht Hvalid Hc Hdup Hall.
  rewrite (Creation.create_valid _ _ _ _ Ht Hvalid Hc). cbn zeta.
  rewrite Hdup, Creation.attach_ratings_runs. simpl.
  by rewrite attached_rows_all.
Qed.

End WithCollaborators.

End CreationMore.

(** ** Further properties of [MovieViewSet.list] and of the two views
    together *)

Module ListingMore.

Import Str MovieViewSet Spec Notions.

Lemma startswith_refl s post : startswith s (s +:+ post) = true.
Proof. apply Listing.startswith_spec. by exists post. Qed.

Lemma icontains_empty s : icontains EmptyString s = true.
Proof. unfold icontains. simpl. by destruct (casefold s). Qed.

Lemma filter_all {A} (p : A -> bool) (l : Datatypes.list A) :
  (forall x, p x = true) -> List.filter p l = l.
Proof.
  intros Hall. induction l as [|x l IH]; [done|]. simpl.
  by rewrite Hall, IH.
Qed.

Lemma filter_sublist {A} (p q : A -> bool) (l : Datatypes.list A) :
  (forall x, p x = true -> q x = true) ->
  sublist (List.filter p l) (List.filter q l).
Proof.
  intros Hpq. induction l as [|x l IH]; simpl; [constructor|].
  destruct (p x) eqn:Hp.
  - rewrite (Hpq x Hp). by constructor.
  - destruct (q x); [by constructor|done].
Qed.

Lemma string_app_assoc (a b c : string) : (a +:+ b) +:+ c = a +:+ b +:+ c.
Proof.
  induction a as [|x a IH]; [reflexivity|].
  change (String x ((a +:+ b) +:+ c) = String x (a +:+ b +:+ c)).
  by f_equal.
Qed.

Lemma string_app_nil_r (a : string) : a +:+ EmptyString = a.
Proof.
  induction a as [|x a IH]; [reflexivity|].
  change (String x (a +:+ EmptyString) = String x a). by f_equal.
Qed.

(** A title that contains a parameter contains what occurs in it. *)
Lemma icontains_narrower t1 t2 s :
  occurs_ignoring_case t1 t2 -> icontains t2 s = true -> icontains t1 s = true.
Proof.
  intros (a & mid & b & -> & Hmid). unfold icontains.
  rewrite !Listing.contains_spec. intros (pre & post & ->).
  exists (pre +:+ casefold a), (casefold b +:+ post).
  rewrite !Listing.casefold_app, Hmid, !string_app_assoc. done.
Qed.

(** A listing request with the empty title is answered with all stored
    movies: the empty parameter is a parameter, and every title contains
    it. *)
Theorem empty_title_lists_all (query_params : gmap string string)
    (w : World) :
  query_params !! "title" = Some EmptyString ->
  MovieViewSet.list query_params w =
  (Returns (mkResponse (movies (db w)) 200), w).
Proof.
  intros Ht. unfold MovieViewSet.list, bind, get_db, ret. rewrite Ht.
  rewrite filter_all; [done|]. intros m. apply icontains_empty.
Qed.

(** Every stored movie is found under its own title, in any case of its
    letters. *)
Theorem own_title_is_found (query_params : gmap string string) (w : World)
    (m : Movie) (t : string) :
  In m (movies (db w)) -> casefold t = casefold (title m) ->
  query_params !! "title" = Some t ->
  exists resp,
    MovieViewSet.list query_params w = (Returns resp, w) /\
    In m (data resp).
Proof.
  intros Hm Hfold Ht. unfold MovieViewSet.list, bind, get_db, ret.
  rewrite Ht. eexists. split; [reflexivity|]. simpl.
  apply List.filter_In. split; [done|].
  apply Listing.icontains_spec. exists EmptyString, (title m), EmptyString.
  split; [|done]. by rewrite string_app_nil_r.
Qed.

(** Narrowing the parameter narrows the answer: when one parameter occurs
    in another, the case of letters ignored, the movies listed under the
    longer one are listed under the shorter one, in the same order. *)
Theorem longer_title_lists_fewer (shorter longer : gmap string string)
    (w : World) (t1 t2 : string) :
  shorter !! "title" = Some t1 -> longer !! "title" = Some t2 ->
  occurs_ignoring_case t1 t2 ->
  exists resp1 resp2,
    MovieViewSet.list shorter w = (Returns resp1, w) /\
    MovieViewSet.list longer w = (Returns resp2, w) /\
    sublist (data resp2) (data resp1).
Proof.
  intros Ht1 Ht2 Hocc. unfold MovieViewSet.list, bind, get_db, ret.
  rewrite Ht1, Ht2. do 2 eexists. split; [reflexivity|].
  split; [reflexivity|]. simpl. apply filter_sublist.
  intros m. by apply icontains_narrower.
Qed.

Section WithCollaborators.

Context `{Collaborators}.

(** A movie that a creation request answered with status 201 for is found
    by a listing request with its canonical title, be it new or stored
    before. *)
Theorem created_movie_is_listed (request_data query_params : gmap string string)
    (w w' : World) (resp : Response dict) (t c : string) :
  request_data !! "title" = Some t ->
  items (OMDbAPIClient_fetch t) !! "Title" = Some c ->
  create request_data w = (Returns resp, w') -> status_code resp = 201 ->
  query_params !! "title" = Some c ->
  exists listed m,
    MovieViewSet.list query_params w' = (Returns listed, w') /\
    In m (data listed) /\ title m = c.
Proof.
  intros Ht Hc Hrun Hstatus Hq.
  assert (exists m, In m (movies (db w')) /\ title m = c) as (m & Hm & Htitle).
  { pose proof (CreationMore.create_runs request_data w) as Hcase.
    rewrite Hrun in Hcase.
    inversion Hcase; subst; simpl in *; try done; try congruence.
    - eexists. split; [apply List.in_or_app; right; by left|].
      simpl. congruence.
    - match goal with
      | Hdup : titled ?c0 (db w) = [?m0] |- _ =>
          assert (c0 = c) as -> by congruence;
          assert (In m0 (titled c (db w))) as Hin by (rewrite Hdup; by left);
          apply List.filter_In in Hin as [Hin Heq];
          apply String.eqb_eq in Heq; by exists m0
      end. }
  destruct (own_title_is_found query_params w' m c Hm) as (listed & Hl & Hin);
    [by rewrite Htitle|done|].
  by exists listed, m.
Qed.

End WithCollaborators.

End ListingMore.

(** ** Comments written by [Comment.objects.create] and the ranking *)

Module CommentsMore.

Import TopMoviesView Spec Notions CommentModel.

(** A comment that the database accepts is written and returned. *)
Lemma accepted_comment_runs utcnow m text author created_at w :
  (String.length (default "Anonymous" author) <= author_max_length)%nat ->
  movie_is_stored (db w) m = true ->
  let c := mkComment (default utcnow created_at) (id m)
                     (default "Anonymous" author) text in
  Comment_objects_create utcnow m text author created_at w =
  (Returns c,
   mkWorld (mkStore (movies (db w)) (ratings (db w)) (comments (db w) ++ [c])
                    (movie_seq (db w)))
           (fetched w)).
Proof.
  intros Hwidth Hstored c.
  unfold Comment_objects_create, bind, get_db, put_db, ret, raise. simpl.
  assert ((author_max_length <? String.length (default "Anonymous" author))%nat
          = false) as -> by (apply Nat.ltb_ge; lia).
  by rewrite Hstored.
Qed.

(** A comment that the database refuses leaves the store as it was. *)
Lemma refused_comment_writes_nothing utcnow m text author created_at w e w' :
  Comment_objects_create utcnow m text author created_at w = (Raises e, w') ->
  w' = w.
Proof.
  unfold Comment_objects_create, bind, get_db, put_db, ret, raise. simpl.
  destruct (author_max_length <? _)%nat; [by intros [= _ <-]|].
  destruct (movie_is_stored (db w) m); simpl; [done|by intros [= _ <-]].
Qed.

Lemma count_after_comment c s f t m' :
  qualifying_count f t
    (mkStore (movies s) (ratings s) (comments s ++ [c]) (movie_seq s)) m' =
  qualifying_count f t s m' +
  (if (movie c =? id m') && qualifies f t c then 1 else 0).
Proof.
  unfold qualifying_count. simpl. rewrite List.filter_app, length_app.
  simpl. destruct ((movie c =? id m') && qualifies f t c); simpl; lia.
Qed.

(** After [Comment.objects.create] on a stored movie, with an author
    within the column's 64 characters (the default is), whatever the text
    and the instant, a request without bounds reports for every stored
    movie the count it had before, and one more for the movies with the key
    the comment refers to; no record is added and none removed. *)
Theorem new_comment_counts_once (utcnow : Z) (m : Movie) (text : string)
    (author : option string) (created_at : option Z) (w : World) :
  (String.length (default "Anonymous" author) <= author_max_length)%nat ->
  movie_is_stored (db w) m = true ->
  exists c w' resp,
    Comment_objects_create utcnow m text author created_at w
      = (Returns c, w') /\
    comments (db w') = comments (db w) ++ [c] /\
    get ∅ w' = (Returns resp, w') /\
    List.map said (data resp) ≡ₚ
    List.map (fun m' => (id m', qualifying_count None None (db w) m' +
                                (if id m =? id m' then 1 else 0)))
             (movies (db w)).
Proof.
  intros Hwidth Hstored.
  rewrite (accepted_comment_runs _ _ _ _ _ _ Hwidth Hstored). cbn zeta.
  set (c := mkComment _ _ _ _). set (w' := mkWorld _ _).
  destruct (CountingMore.get_shows ∅ w') as (resp & Hget & Hsaid).
  exists c, w', resp. split; [done|]. split; [done|]. split; [done|].
  assert ((∅ : gmap string Z) !! "from" = None) as Hf by reflexivity.
  assert ((∅ : gmap string Z) !! "to" = None) as Ht by reflexivity.
  rewrite Hf, Ht in Hsaid. unfold shown in Hsaid. rewrite Hsaid.
  apply eq_subrelation; [apply _|]. apply List.map_ext. intros m'.
  unfold w'. simpl. rewrite count_after_comment. unfold qualifies. simpl.
  by rewrite andb_true_r.
Qed.

End CommentsMore.

(** ** The messages of the refusals *)

Module MessagesMore.

Import Str MovieViewSet Spec Notions.

Section WithCollaborators.

Context `{Collaborators}.

(** Every answer of status 400 has the body [{"string": message}], of
    this one key, where [message] is the text on the missing title or the
    text of the database's data error without its leading and trailing
    white space; in both cases it neither begins nor ends with white
    space. *)
Theorem refusal_message_is_stripped (request_data : gmap string string)
    (w w' : World) (resp : Response dict) :
  create request_data w = (Returns resp, w') -> status_code resp = 400 ->
  exists message,
    data resp = mkDict {[ "string" := message ]} None /\
    (message = "Title is a required parameter" \/
     exists t text,
       request_data !! "title" = Some t /\
       Movie_DataError (movie_fields t) = Some text /\
       stripped_of text message) /\
    (forall c, first_char message = Some c -> isspace c = false) /\
    (forall c, last_char message = Some c -> isspace c = false).
Proof.
  intros Hrun Hstatus.
  pose proof (CreationMore.create_runs request_data w) as Hcase.
  rewrite Hrun in Hcase.
  inversion Hcase; subst; simpl in *; try done.
  - eexists. split; [reflexivity|]. split; [by left|].
    split; intros c [= <-]; reflexivity.
  - match goal with
    | Herr : Movie_DataError (movie_fields ?t0) = Some ?text0 |- _ =>
        exists (strip text0);
        pose proof (StripFacts.strip_stripped text0) as Hs;
        split; [reflexivity|]; split; [right; by exists t0, text0|]; apply Hs
    end.
Qed.

End WithCollaborators.

End MessagesMore.

(** ** The further properties on the fixtures *)

Module OnFixtures.

Import Str MovieViewSet Spec Notions Fixtures.

Lemma commented_store_unique_titles : unique_titles commented_store.
Proof.
  unfold unique_titles. simpl.
  exact (bool_decide_unpack
           (NoDup ["Godfather"; "The Room"; "Fantastic Four"]) I).
Qed.

Lemma provider_is_called_once_witness :
  fetched (snd (create {[ "title" := "Unknown" ]} (world_of commented_store)))
  = fetched (world_of commented_store) ++ ["Unknown"].
Proof.
  apply (CreationMore.provider_is_called_once
           {[ "title" := "Unknown" ]} (world_of commented_store) "Unknown").
  reflexivity.
Defined.

Lemma create_keeps_titles_unique_witness :
  unique_titles
    (db (snd (create {[ "title" := "Citizen Kane" ]}
                (world_of commented_store)))).
Proof.
  apply (CreationMore.create_keeps_titles_unique
           {[ "title" := "Citizen Kane" ]} (world_of commented_store)).
  exact commented_store_unique_titles.
Defined.

Lemma unique_titles_never_several_witness :
  fst (create {[ "title" := "Godfather" ]} (world_of commented_store))
  <> Raises MultipleObjectsReturned.
Proof.
  apply (CreationMore.unique_titles_never_several
           {[ "title" := "Godfather" ]} (world_of commented_store)).
  exact commented_store_unique_titles.
Defined.

Lemma same_canonical_title_creates_no_movie_witness :
  let w1 := snd (@create by_keyword {[ "title" := "kane" ]}
                   (world_of empty_store)) in
  exists resp2 w2,
    @create by_keyword {[ "title" := "CITIZEN KANE" ]} w1
      = (Returns resp2, w2) /\
    status_code resp2 = 201 /\ movies (db w2) = movies (db w1).
Proof.
  apply (@CreationMore.same_canonical_title_creates_no_movie by_keyword
           {[ "title" := "kane" ]} {[ "title" := "CITIZEN KANE" ]}
           (world_of empty_store) _ (mkResponse movie_citizen_kane 201)
           "kane" "CITIZEN KANE" "Citizen Kane"); reflexivity.
Defined.

Lemma new_movie_writes_no_rating_witness :
  exists resp w',
    create {[ "title" := "Citizen Kane" ]} (world_of empty_store)
      = (Returns resp, w') /\
    status_code resp = 201 /\
    Ratings (data resp) = Some (provided_ratings "Citizen Kane") /\
    ratings (db w') = ratings empty_store /\
    comments (db w') = comments empty_store.
Proof.
  apply (CreationMore.new_movie_writes_no_rating
           {[ "title" := "Citizen Kane" ]} (world_of empty_store)
           "Citizen Kane" "Citizen Kane"); reflexivity.
Defined.

Lemma missing_Title_raises_KeyError_witness :
  @create lenient {[ "title" := "Unknown" ]} (world_of commented_store) =
  (Raises (KeyError "Title"), mkWorld commented_store ["Unknown"]).
Proof.
  apply (@CreationMore.missing_Title_raises_KeyError lenient
           {[ "title" := "Unknown" ]} (world_of commented_store) "Unknown");
    reflexivity.
Defined.

Lemma accepted_ratings_are_all_attached_witness :
  ratings (db (snd (create {[ "title" := "Citizen Kane" ]}
                      (world_of kane_stored)))) =
  ratings kane_stored ++
  [ mkRating 1 "Internet Movie Database" "8.4/10";
    mkRating 1 "Rotten Tomatoes" "100%";
    mkRating 1 "Metacritic" "100/100" ].
Proof.
  set (m := mkMovie 1 "Citizen Kane" (items movie_citizen_kane)).
  change (ratings (db (snd (create {[ "title" := "Citizen Kane" ]}
                              (world_of kane_stored)))) =
          ratings (db (world_of kane_stored)) ++
          List.map (fun r => mkRating (id m) (as_string (r !! "Source"))
                                      (as_string (r !! "Value")))
                   (provided_ratings "Citizen Kane")).
  apply (CreationMore.accepted_ratings_are_all_attached
           {[ "title" := "Citizen Kane" ]} (world_of kane_stored)
           "Citizen Kane" "Citizen Kane" m);
    try reflexivity.
  intros s r [<-|[<-|[<-|[]]]]; split; reflexivity.
Defined.

Lemma empty_title_lists_all_witness :
  MovieViewSet.list {[ "title" := EmptyString ]} (world_of commented_store) =
  (Returns (mkResponse (movies commented_store) 200),
   world_of commented_store).
Proof. apply ListingMore.empty_title_lists_all. reflexivity. Defined.

Lemma own_title_is_found_witness :
  exists resp,
    MovieViewSet.list {[ "title" := "THE ROOM" ]} (world_of commented_store)
      = (Returns resp, world_of commented_store) /\
    In the_room (data resp).
Proof.
  apply (ListingMore.own_title_is_found _ _ the_room "THE ROOM").
  - simpl. auto.
  - reflexivity.
  - reflexivity.
Defined.

Lemma longer_title_lists_fewer_witness :
  exists resp1 resp2,
    MovieViewSet.list {[ "title" := "the" ]} (world_of commented_store)
      = (Returns resp1, world_of commented_store) /\
    MovieViewSet.list {[ "title" := "The R" ]} (world_of commented_store)
      = (Returns resp2, world_of commented_store) /\
    sublist (data resp2) (data resp1).
Proof.
  apply (ListingMore.longer_title_lists_fewer _ _ _ "the" "The R");
    [reflexivity..|].
  exists EmptyString, "The", " R". split; reflexivity.
Defined.

Lemma created_movie_is_listed_witness :
  let w' := snd (create {[ "title" := "Citizen Kane" ]}
                   (world_of empty_store)) in
  exists listed m,
    MovieViewSet.list {[ "title" := "Citizen Kane" ]} w'
      = (Returns listed, w') /\
    In m (data listed) /\ title m = "Citizen Kane".
Proof.
  apply (ListingMore.created_movie_is_listed
           {[ "title" := "Citizen Kane" ]} {[ "title" := "Citizen Kane" ]}
           (world_of empty_store) _ (mkResponse movie_citizen_kane 201)
           "Citizen Kane" "Citizen Kane"); reflexivity.
Defined.

Lemma refusal_message_is_stripped_witness :
  exists message,
    mkDict {[ "string" := "value too long for type character varying(128)" ]}
           None
      = mkDict {[ "string" := message ]} None /\
    (message = "Title is a required parameter" \/
     exists t text,
       ({[ "title" := "Stranger Tides" ]} : gmap string string) !! "title"
         = Some t /\
       Movie_DataError (movie_fields t) = Some text /\
       stripped_of text message) /\
    (forall c, first_char message = Some c -> isspace c = false) /\
    (forall c, last_char message = Some c -> isspace c = false).
Proof.
  apply (MessagesMore.refusal_message_is_stripped
           {[ "title" := "Stranger Tides" ]} (world_of empty_store)
           (mkWorld empty_store ["Stranger Tides"])
           (mkResponse
              (mkDict
                 {[ "string" :=
                      "value too long for type character varying(128)" ]}
                 None)
              400)); reflexivity.
Defined.

Lemma new_comment_counts_once_witness :
  exists c w' resp,
    CommentModel.Comment_objects_create 2000 the_room "Oh hi Mark" None None
      (world_of commented_store) = (Returns c, w') /\
    comments (db w') = comments commented_store ++ [c] /\
    TopMoviesView.get ∅ w' = (Returns resp, w') /\
    List.map said (data resp) ≡ₚ
    List.map (fun m' => (id m',
                         qualifying_count None None commented_store m' +
                         (if id the_room =? id m' then 1 else 0)))
             (movies commented_store).
Proof.
  apply (CommentsMore.new_comment_counts_once 2000 the_room "Oh hi Mark"
           None None (world_of commented_store)).
  - simpl. unfold CommentModel.author_max_length. lia.
  - reflexivity.
Defined.

End OnFixtures.
